(** * VoxBiz chat widget: a model of [Frontend/src/components/Chat.jsx]

    The component [BusinessChatBox] keeps five pieces of React state
    (messages, input, loading, isListening, isSpeaking), two browser handles
    (speech recognition, speech synthesis) and talks to one HTTP endpoint.
    Every handler of the component is rendered here as a function on an
    explicit [State]; the browser and axios are rendered by the few
    transitions the handlers rely on. *)

From Stdlib Require Import String Ascii DecimalString.
From Stdlib Require Import List NArith ZArith Bool Lia.
Import ListNotations.

Local Open Scope N_scope.

(** ** JavaScript strings *)

Module JsString.

(** A JavaScript string is a sequence of UTF-16 code units. *)
Definition jsstring : Type := list N.

(** Reading a UTF-8 literal of this file as code units, so that the
    literals of the source can be written as they are. *)
Fixpoint utf16 (bs : list N) : jsstring :=
  match bs with
  | [] => []
  | b0 :: r0 =>
      if b0 <? 128 then b0 :: utf16 r0
      else if b0 <? 224 then
        match r0 with
        | b1 :: r1 => ((b0 mod 32) * 64 + b1 mod 64) :: utf16 r1
        | _ => [65533]
        end
      else if b0 <? 240 then
        match r0 with
        | b1 :: b2 :: r2 =>
            ((b0 mod 16) * 4096 + (b1 mod 64) * 64 + b2 mod 64) :: utf16 r2
        | _ => [65533]
        end
      else
        match r0 with
        | b1 :: b2 :: b3 :: r3 =>
            let cp := (b0 mod 8) * 262144 + (b1 mod 64) * 4096
                      + (b2 mod 64) * 64 + b3 mod 64 in
            let v := cp - 65536 in
            (55296 + v / 1024) :: (56320 + v mod 1024) :: utf16 r3
        | _ => [65533]
        end
  end.

Definition js (s : string) : jsstring :=
  utf16 (map N_of_ascii (list_ascii_of_string s)).

Fixpoint eqb (a b : jsstring) : bool :=
  match a, b with
  | [], [] => true
  | x :: a', y :: b' => (x =? y) && eqb a' b'
  | _, _ => false
  end.

(** ECMAScript [WhiteSpace] and [LineTerminator] code points, the ones
    [String.prototype.trim] strips. All of them are single code units. *)
Definition isWhiteSpace (c : N) : bool :=
  (c =? 9) || (c =? 10) || (c =? 11) || (c =? 12) || (c =? 13)
  || (c =? 32) || (c =? 160) || (c =? 5760)
  || ((8192 <=? c) && (c <=? 8202))
  || (c =? 8232) || (c =? 8233) || (c =? 8239) || (c =? 8287)
  || (c =? 12288) || (c =? 65279).

Fixpoint trimStart (s : jsstring) : jsstring :=
  match s with
  | [] => []
  | c :: r => if isWhiteSpace c then trimStart r else s
  end.

Definition trimEnd (s : jsstring) : jsstring := rev (trimStart (rev s)).

(** [s.trim()] *)
Definition trim (s : jsstring) : jsstring := trimEnd (trimStart s).

(** [parts.join('')] on an array of strings *)
Definition join (parts : list jsstring) : jsstring := concat parts.

(** [s.replace(/[#*_]/g, '')]: every [#], [*] and [_] is dropped. *)
Definition isEmphasis (c : N) : bool := (c =? 35) || (c =? 42) || (c =? 95).

Definition stripEmphasis (s : jsstring) : jsstring :=
  filter (fun c => negb (isEmphasis c)) s.

(** A string is blank when it has no code unit other than white space. *)
Definition blank (s : jsstring) : bool := forallb isWhiteSpace s.

End JsString.
Import JsString.

(** ** JavaScript values as they come out of a JSON body *)

Module Json.

#[local] Set Warnings "-register-all".

(** [JNum] carries integers only: a number is looked at here for being
    zero and for not being a string, nothing else. [JUndefined] is the
    result of reading a property that is not there. *)
Inductive JValue : Type :=
| JUndefined
| JNull
| JBool (b : bool)
| JNum (z : Z)
| JStr (s : jsstring)
| JArr (items : list JValue)
| JObj (fields : list (jsstring * JValue)).

Inductive Key : Type :=
| KName (name : string)
| KIndex (i : nat).

(** The property name an index stands for: [o[0]] reads property ["0"]. *)
Definition keyName (k : Key) : jsstring :=
  match k with
  | KName name => js name
  | KIndex i => js (NilZero.string_of_uint (Nat.to_uint i))
  end.

(** Own property of a parsed object; of two fields of one name the later
    one is the one [JSON.parse] keeps. *)
Fixpoint field (name : jsstring) (fields : list (jsstring * JValue)) : JValue :=
  match fields with
  | [] => JUndefined
  | (n, v) :: rest =>
      match field name rest with
      | JUndefined => if JsString.eqb n name then v else JUndefined
      | later => later
      end
  end.

(** [v[k]] for a [v] that is neither [null] nor [undefined], for the
    names the component reads ([data], [candidates], [content], [parts],
    [text]) and for indices: none of these names is on a prototype. *)
Definition getProp (v : JValue) (k : Key) : JValue :=
  match v, k with
  | JObj fields, _ => field (keyName k) fields
  | JArr items, KIndex i => nth i items JUndefined
  | JStr s, KIndex i =>
      match nth_error s i with
      | Some c => JStr [c]
      | None => JUndefined
      end
  | _, _ => JUndefined
  end.

(** [v?.[k]] and [v?.k] *)
Definition optChain (v : JValue) (k : Key) : JValue :=
  match v with
  | JUndefined | JNull => JUndefined
  | _ => getProp v k
  end.

(** ToBoolean *)
Definition truthy (v : JValue) : bool :=
  match v with
  | JUndefined | JNull => false
  | JBool b => b
  | JNum z => negb (z =? 0)%Z
  | JStr s => negb (match s with [] => true | _ => false end)
  | JArr _ | JObj _ => true
  end.

(** [a || b] *)
Definition or_else (a b : JValue) : JValue := if truthy a then a else b.

(** [v.replace(/[#*_]/g, '')]: a string method; on any other value of a
    JSON body [replace] is not a function and the call throws. *)
Definition replaceEmphasis (v : JValue) : option jsstring :=
  match v with
  | JStr s => Some (stripEmphasis s)
  | _ => None
  end.

End Json.
Import Json.

(** ** The browser and the HTTP client, as far as the component uses them *)

Module Browser.

(** A [SpeechRecognition] object: [start()] on a session that is already
    started throws [InvalidStateError]; [stop()] on a session that is not
    started is ignored. *)
Record SpeechRecognition : Type := { started : bool }.

Definition start (r : SpeechRecognition) : option SpeechRecognition :=
  if started r then None else Some {| started := true |}.

Definition stop (r : SpeechRecognition) : SpeechRecognition :=
  {| started := false |}.

(** One segment of [event.results]: its alternatives, best first. *)
Record SpeechRecognitionAlternative : Type := { transcript : jsstring }.
Definition SpeechRecognitionResult : Type := list SpeechRecognitionAlternative.

Record SpeechSynthesisUtterance : Type := { text : jsstring }.

(** [window.speechSynthesis]: a queue of utterances whose head is the one
    being spoken (nothing here ever pauses it), and the number of
    utterances removed by [cancel()] whose closing event is still to be
    delivered. *)
Record SpeechSynthesis : Type :=
  { queue : list SpeechSynthesisUtterance;
    interrupted : nat }.

Definition speaking (y : SpeechSynthesis) : bool :=
  match queue y with [] => false | _ => true end.

Definition cancel (y : SpeechSynthesis) : SpeechSynthesis :=
  {| queue := []; interrupted := (interrupted y + length (queue y))%nat |}.

Definition speak (u : SpeechSynthesisUtterance) (y : SpeechSynthesis)
  : SpeechSynthesis :=
  {| queue := queue y ++ [u]; interrupted := interrupted y |}.

(** What comes back for a request, and what axios makes of it with its
    default [validateStatus]: the promise resolves for a status in
    200..299 and rejects otherwise. *)
Inductive HttpResult : Type :=
| NetworkError
| HttpReply (status : Z) (body : JValue).

Record AxiosResponse : Type := { status : Z; data : JValue }.

Inductive Settled : Type :=
| Resolved (response : AxiosResponse)
| Rejected.

Definition axios_settle (r : HttpResult) : Settled :=
  match r with
  | NetworkError => Rejected
  | HttpReply st body =>
      if ((200 <=? st) && (st <? 300))%Z
      then Resolved {| status := st; data := body |}
      else Rejected
  end.

End Browser.
Import Browser.

(** ** The component *)

Inductive Role : Type := user | assistant.

Record Message : Type := { role : Role; content : JValue }.

(** A request that was posted and has not settled, with what the rest of
    [sendMessage] still holds of the call that posted it. *)
Record PendingRequest : Type :=
  { url : jsstring;
    body : JValue;
    newMessages : list Message }.

Record State : Type := mkState
  { messages : list Message;
    input : jsstring;
    loading : bool;
    isListening : bool;
    isSpeaking : bool;
    recognitionRef : option SpeechRecognition;
    speechSynthesisRef : option SpeechSynthesis;
    pending : list PendingRequest;
    alerts : list jsstring;
    console : list jsstring }.

Definition setMessages (v : list Message) (s : State) : State :=
  mkState v (input s) (loading s) (isListening s) (isSpeaking s)
    (recognitionRef s) (speechSynthesisRef s) (pending s) (alerts s) (console s).

Definition setInput (v : jsstring) (s : State) : State :=
  mkState (messages s) v (loading s) (isListening s) (isSpeaking s)
    (recognitionRef s) (speechSynthesisRef s) (pending s) (alerts s) (console s).

Definition setLoading (v : bool) (s : State) : State :=
  mkState (messages s) (input s) v (isListening s) (isSpeaking s)
    (recognitionRef s) (speechSynthesisRef s) (pending s) (alerts s) (console s).

Definition setIsListening (v : bool) (s : State) : State :=
  mkState (messages s) (input s) (loading s) v (isSpeaking s)
    (recognitionRef s) (speechSynthesisRef s) (pending s) (alerts s) (console s).

Definition setIsSpeaking (v : bool) (s : State) : State :=
  mkState (messages s) (input s) (loading s) (isListening s) v
    (recognitionRef s) (speechSynthesisRef s) (pending s) (alerts s) (console s).

Definition withRecognition (r : SpeechRecognition) (s : State) : State :=
  mkState (messages s) (input s) (loading s) (isListening s) (isSpeaking s)
    (Some r) (speechSynthesisRef s) (pending s) (alerts s) (console s).

Definition withSynthesis (y : SpeechSynthesis) (s : State) : State :=
  mkState (messages s) (input s) (loading s) (isListening s) (isSpeaking s)
    (recognitionRef s) (Some y) (pending s) (alerts s) (console s).

Definition withPending (p : list PendingRequest) (s : State) : State :=
  mkState (messages s) (input s) (loading s) (isListening s) (isSpeaking s)
    (recognitionRef s) (speechSynthesisRef s) p (alerts s) (console s).

Definition alert (msg : string) (s : State) : State :=
  mkState (messages s) (input s) (loading s) (isListening s) (isSpeaking s)
    (recognitionRef s) (speechSynthesisRef s) (pending s)
    (alerts s ++ [js msg]) (console s).

Definition consoleError (label : string) (s : State) : State :=
  mkState (messages s) (input s) (loading s) (isListening s) (isSpeaking s)
    (recognitionRef s) (speechSynthesisRef s) (pending s) (alerts s)
    (console s ++ [js label]).

(** The state on mount; the two flags say what the browser offers.
    Nothing is being spoken when the component mounts. *)
Definition mount (hasRecognition hasSynthesis : bool) : State :=
  {| messages := [];
     input := [];
     loading := false;
     isListening := false;
     isSpeaking := false;
     recognitionRef :=
       if hasRecognition then Some {| started := false |} else None;
     speechSynthesisRef :=
       if hasSynthesis then Some {| queue := []; interrupted := 0 |} else None;
     pending := [];
     alerts := [];
     console := [] |}.

Definition SYSTEM_PROMPT : jsstring :=
  js "You are a business strategy assistant.
You must:
✔ Provide data-driven business insights
✔ Generate strategic plans and recommendations
✔ Focus on trends, opportunities, risks, and KPIs
✔ Tailor responses for startups, SMEs, or large enterprises

You must NOT:
❌ Answer unrelated questions
❌ Provide non-business content

Respond strictly within business analysis, management, growth, and operational strategy.".

Section Component.

(** [import.meta.env.VITE_GEMINI_API_KEY], as it reads inside the URL. *)
Variable GEMINI_API_KEY : jsstring.

(** *** Speech input *)

(** [Array.from(event.results).map(result => result[0])
      .map(result => result.transcript)]; a segment with no alternative
    makes the second [map] throw. *)
Fixpoint transcripts (results : list SpeechRecognitionResult)
  : option (list jsstring) :=
  match results with
  | [] => Some []
  | result :: rest =>
      match nth_error result 0, transcripts rest with
      | Some first, Some ts => Some (transcript first :: ts)
      | _, _ => None
      end
  end.

Definition onresult (results : list SpeechRecognitionResult) (s : State)
  : State :=
  match transcripts results with
  | Some ts => setInput (join ts) s
  | None => s
  end.

Definition onerror (s : State) : State :=
  setIsListening false (consoleError "Speech recognition error" s).

(** The cleanup of the mounting effect. *)
Definition cleanup (s : State) : State :=
  let s1 :=
    match recognitionRef s with
    | Some r => withRecognition (stop r) s
    | None => s
    end in
  match speechSynthesisRef s1 with
  | Some y => if speaking y then withSynthesis (cancel y) s1 else s1
  | None => s1
  end.

(** When [start()] throws, the handler is left before [setIsListening]. *)
Definition toggleListening (s : State) : State :=
  match recognitionRef s with
  | None => alert "Speech recognition is not supported in your browser." s
  | Some r =>
      if isListening s then setIsListening false (withRecognition (stop r) s)
      else
        match start r with
        | Some r' => setIsListening true (withRecognition r' s)
        | None => s
        end
  end.

(** *** Speech output *)

Definition speakText (t : jsstring) (s : State) : State :=
  match speechSynthesisRef s with
  | None => alert "Speech synthesis is not supported in your browser." s
  | Some y =>
      let y1 := if speaking y then cancel y else y in
      let utterance := {| text := t |} in
      withSynthesis (speak utterance y1) (setIsSpeaking true s)
  end.

Definition stopSpeaking (s : State) : State :=
  match speechSynthesisRef s with
  | Some y =>
      if speaking y then setIsSpeaking false (withSynthesis (cancel y) s)
      else s
  | None => s
  end.

(** *** One turn *)

Definition endpoint : jsstring :=
  js "https://generativelanguage.googleapis.com/v1beta/models/gemini-1.5-pro:generateContent?key="
  ++ GEMINI_API_KEY.

Definition requestBody (userMessage : jsstring) : JValue :=
  JObj [(js "contents",
         JArr [JObj [(js "role", JStr (js "user"));
                     (js "parts",
                      JArr [JObj [(js "text",
                                   JStr (SYSTEM_PROMPT ++ [10; 10]
                                         ++ userMessage ++ js " "))]])]])].

Definition post (u : jsstring) (b : JValue) (kept : list Message) (s : State)
  : State :=
  withPending (pending s ++ [{| url := u; body := b; newMessages := kept |}]) s.

(** [sendMessage] up to its [await]. *)
Definition sendMessage (s : State) : State :=
  if match trim (input s) with [] => true | _ => false end || loading s
  then s
  else
    let userMessage := trim (input s) in
    let newMessages :=
      messages s ++ [{| role := user; content := JStr userMessage |}] in
    let s1 := setMessages newMessages s in
    let s2 := setInput (js "") s1 in
    let s3 := setLoading true s2 in
    let s4 := if isListening s then toggleListening s3 else s3 in
    post endpoint (requestBody userMessage) newMessages s4.

Definition placeholder : jsstring := js "⚠ No response received.".

Definition errorMessage : jsstring :=
  js "⚠ Failed to fetch response. Please check your API key or try again later.".

(** [response?.data?.candidates?.[0]?.content?.parts?.[0]?.text] *)
Definition extractText (response : AxiosResponse) : JValue :=
  fold_left optChain
    [KName "candidates"; KIndex 0; KName "content"; KName "parts";
     KIndex 0; KName "text"]
    (data response).

Inductive Completion : Type :=
| Normal (s : State)
| Thrown (s : State).

(** The [try] block after the [await]. *)
Definition sendMessage_try (k : PendingRequest) (response : AxiosResponse)
  (s : State) : Completion :=
  let botResponse := or_else (extractText response) (JStr placeholder) in
  let s1 :=
    setMessages
      (newMessages k ++ [{| role := assistant; content := botResponse |}]) s in
  match replaceEmphasis botResponse with
  | Some spoken => Normal (speakText spoken s1)
  | None => Thrown s1
  end.

Definition sendMessage_catch (k : PendingRequest) (s : State) : State :=
  let s1 := consoleError "Gemini error:" s in
  let s2 :=
    setMessages
      (newMessages k ++ [{| role := assistant; content := JStr errorMessage |}])
      s1 in
  speakText errorMessage s2.

Definition sendMessage_finally (s : State) : State := setLoading false s.

(** [sendMessage] from its [await] on, once the request has settled. *)
Definition sendMessage_settled (k : PendingRequest) (outcome : Settled)
  (s : State) : State :=
  sendMessage_finally
    match outcome with
    | Resolved response =>
        match sendMessage_try k response s with
        | Normal s' => s'
        | Thrown s' => sendMessage_catch k s'
        end
    | Rejected => sendMessage_catch k s
    end.

Definition handleKeyPress (key : string) (shiftKey : bool) (s : State)
  : State :=
  if JsString.eqb (js key) (js "Enter") && negb shiftKey
  then sendMessage s
  else s.

(** The button under an assistant message. *)
Definition readAloud (index : nat) (s : State) : State :=
  match nth_error (messages s) index with
  | Some msg =>
      match role msg with
      | assistant =>
          if isSpeaking s then stopSpeaking s
          else
            match replaceEmphasis (content msg) with
            | Some spoken => speakText spoken s
            | None => s
            end
      | user => s
      end
  | None => s
  end.

(** *** The event loop *)

Inductive Event : Type :=
| Change (value : jsstring)
| KeyPress (key : string) (shiftKey : bool)
| ClickSend
| ClickMic
| ClickReadAloud (index : nat)
| RecognitionResult (results : list SpeechRecognitionResult)
| RecognitionError
| RecognitionEnd
| UtteranceEnd
| UtteranceError
| UtteranceInterrupted
| Response (r : HttpResult).

(** The utterance being spoken leaves the queue and its [onend] or
    [onerror] runs; both are [() => setIsSpeaking(false)]. *)
Definition utteranceDone (s : State) : State :=
  match speechSynthesisRef s with
  | Some y =>
      match queue y with
      | _ :: rest =>
          setIsSpeaking false
            (withSynthesis {| queue := rest; interrupted := interrupted y |} s)
      | [] => s
      end
  | None => s
  end.

(** The closing event of an utterance that [cancel()] removed. *)
Definition utteranceInterrupted (s : State) : State :=
  match speechSynthesisRef s with
  | Some y =>
      match interrupted y with
      | S n =>
          setIsSpeaking false
            (withSynthesis {| queue := queue y; interrupted := n |} s)
      | O => s
      end
  | None => s
  end.

(** One callback of the event loop. Events are taken as they come: a
    key press or a click is handled even where the render disables the
    control, and a response settles the oldest open request. The
    recognition callbacks exist only when the browser has recognition. *)
Definition handle (e : Event) (s : State) : State :=
  match e with
  | Change value => setInput value s
  | KeyPress key shiftKey => handleKeyPress key shiftKey s
  | ClickSend => sendMessage s
  | ClickMic => toggleListening s
  | ClickReadAloud index => readAloud index s
  | RecognitionResult results =>
      match recognitionRef s with
      | Some _ => onresult results s
      | None => s
      end
  | RecognitionError =>
      match recognitionRef s with
      | Some r => onerror (withRecognition (stop r) s)
      | None => s
      end
  | RecognitionEnd =>
      match recognitionRef s with
      | Some r => withRecognition (stop r) s
      | None => s
      end
  | UtteranceEnd | UtteranceError => utteranceDone s
  | UtteranceInterrupted => utteranceInterrupted s
  | Response r =>
      match pending s with
      | k :: rest => sendMessage_settled k (axios_settle r) (withPending rest s)
      | [] => s
      end
  end.

Definition run (events : list Event) (s : State) : State :=
  fold_left (fun st e => handle e st) events s.

Inductive reachable : State -> Prop :=
| reachable_mount (hasRecognition hasSynthesis : bool) :
    reachable (mount hasRecognition hasSynthesis)
| reachable_step (e : Event) (s : State) :
    reachable s -> reachable (handle e s).

Inductive Phase : Type := idle | awaiting_response.

Definition phase (s : State) : Phase :=
  match pending s with [] => idle | _ => awaiting_response end.

End Component.

Definition userSays (t : jsstring) : Message :=
  {| role := user; content := JStr t |}.

Definition assistantSays (t : jsstring) : Message :=
  {| role := assistant; content := JStr t |}.

(** The response shape the endpoint documents:
    [{ candidates: [{ content: { parts: [{ text: <string> }] } }] }]. *)
Definition replyWith (textValue : JValue) : JValue :=
  JObj [(js "candidates",
         JArr [JObj [(js "content",
                      JObj [(js "parts", JArr [JObj [(js "text", textValue)]])])]])].

Definition reply (t : jsstring) : JValue := replyWith (JStr t).

(** The ways a request fails: no reply, a status outside 200..299, or a
    2xx reply whose text is there, is not falsy and is not a string. *)
Inductive Failure : HttpResult -> Prop :=
| failure_network : Failure NetworkError
| failure_status (st : Z) (b : JValue) :
    ~ (200 <= st < 300)%Z -> Failure (HttpReply st b)
| failure_text (st : Z) (b : JValue) :
    (200 <= st < 300)%Z ->
    truthy (extractText {| status := st; data := b |}) = true ->
    (forall t, extractText {| status := st; data := b |} <> JStr t) ->
    Failure (HttpReply st b).

(** The transcript of the first alternative of a segment. *)
Definition firstTranscript (result : SpeechRecognitionResult) : jsstring :=
  match result with
  | first :: _ => transcript first
  | [] => []
  end.

Definition utteranceActive (s : State) : bool :=
  match speechSynthesisRef s with
  | Some y => speaking y
  | None => false
  end.

Definition recognitionActive (s : State) : bool :=
  match recognitionRef s with
  | Some r => started r
  | None => false
  end.

(** At most one utterance is in the synthesis queue. *)
Definition oneUtterance (s : State) : Prop :=
  match speechSynthesisRef s with
  | Some y => (length (queue y) <= 1)%nat
  | None => True
  end.

(** At most one request is open, loading says whether one is, and each
    open request carries the body made from one user text. *)
Definition oneRequest (s : State) : Prop :=
  (length (pending s) <= 1)%nat
  /\ loading s = match pending s with [] => false | _ => true end
  /\ Forall (fun k => exists userText, body k = requestBody userText) (pending s).

(** The events that call [sendMessage], and the one that settles a request. *)
Definition submits (e : Event) : bool :=
  match e with
  | ClickSend | KeyPress _ _ => true
  | _ => false
  end.

Definition settles (e : Event) : bool :=
  match e with
  | Response _ => true
  | _ => false
  end.

(** ** What the component renders

    The parts of the returned JSX that depend on the state: the welcome
    line, one bubble per message (an assistant bubble has the read-aloud
    button, whose title follows isSpeaking), the three loading dots, the
    microphone button, the text field and the Send button. *)

Record Bubble : Type :=
  { bubbleRole : Role;
    markdown : JValue;
    buttonTitle : option string }.

Record View : Type :=
  { welcome : bool;
    bubbles : list Bubble;
    dots : bool;
    micTitle : string;
    inputValue : jsstring;
    inputDisabled : bool;
    sendDisabled : bool }.

Definition render (s : State) : View :=
  {| welcome := match messages s with [] => true | _ => false end;
     bubbles :=
       map (fun msg =>
              {| bubbleRole := role msg;
                 markdown := content msg;
                 buttonTitle :=
                   match role msg with
                   | assistant =>
                       Some (if isSpeaking s then "Stop speaking" else "Read aloud")%string
                   | user => None
                   end |})
           (messages s);
     dots := loading s;
     micTitle := (if isListening s then "Stop listening" else "Start voice input")%string;
     inputValue := input s;
     inputDisabled := loading s;
     sendDisabled :=
       loading s || match trim (input s) with [] => true | _ => false end |}.

(** ** Shapes of the history and of the speech queue *)

Definition flip (r : Role) : Role :=
  match r with
  | user => assistant
  | assistant => user
  end.

Definition sameRole (a b : Role) : bool :=
  match a, b with
  | user, user | assistant, assistant => true
  | _, _ => false
  end.

(** The roles of [ms] go [expect], [flip expect], [expect], ... *)
Fixpoint alternates (expect : Role) (ms : list Message) : bool :=
  match ms with
  | [] => true
  | m :: rest => sameRole (role m) expect && alternates (flip expect) rest
  end.

(** A message whose content is a string that is not empty and, for a user
    message, that [trim] would leave as it is. *)
Definition textMessage (m : Message) : Prop :=
  exists t, content m = JStr t /\ t <> []
            /\ (role m = user -> trim t = t).

(** A string with no [#], [*] or [_] in it. *)
Definition plain (t : jsstring) : bool :=
  forallb (fun c => negb (isEmphasis c)) t.

Definition queuePlain (s : State) : Prop :=
  match speechSynthesisRef s with
  | Some y => Forall (fun u => plain (text u) = true) (queue y)
  | None => True
  end.

(** An alert is accounted for when it names a capability that is missing. *)
Definition alertAccounted (s : State) (a : jsstring) : Prop :=
  (a = js "Speech recognition is not supported in your browser."
   /\ recognitionRef s = None)
  \/ (a = js "Speech synthesis is not supported in your browser."
      /\ speechSynthesisRef s = None).

(** The two facts about speech that every callback keeps: isSpeaking is
    true only while an utterance is queued, and no queued utterance has an
    emphasis character in its text. *)
Definition speechKept (s : State) : Prop :=
  (isSpeaking s = true -> utteranceActive s = true) /\ queuePlain s.

(** Listening is on only where there is recognition to listen with. *)
Definition micKept (s : State) : Prop :=
  isListening s = true -> recognitionRef s <> None.

(** From [s] to [s'] no capability appeared or went away, and the alerts
    shown on the way are accounted for. *)
Definition quiet (s s' : State) : Prop :=
  (recognitionRef s' = None <-> recognitionRef s = None)
  /\ (speechSynthesisRef s' = None <-> speechSynthesisRef s = None)
  /\ exists shown, alerts s' = alerts s ++ shown
                  /\ Forall (alertAccounted s) shown.

(** The callbacks of speech input: the microphone button and what the
    recognition session sends. *)
Definition voiceInput (e : Event) : bool :=
  match e with
  | ClickMic | RecognitionResult _ | RecognitionError | RecognitionEnd => true
  | _ => false
  end.

(** ** Checks of the model on concrete values *)

Example js_warning_sign : js "⚠ No" = [9888; 32; 78; 111].
Proof. reflexivity. Qed.

Example trim_both_ends : trim (js "  Show me 	") = js "Show me".
Proof. reflexivity. Qed.

Example keyName_index : keyName (KIndex 10) = js "10".
Proof. reflexivity. Qed.

Example keyName_zero : keyName (KIndex 0) = js "0".
Proof. reflexivity. Qed.

Example systemPrompt_size : length SYSTEM_PROMPT = 410%nat.
Proof. reflexivity. Qed.

Example systemPrompt_checksum : fold_right N.add 0 SYSTEM_PROMPT = 98018.
Proof. reflexivity. Qed.

Example extract_reply :
  extractText {| status := 200; data := reply (js "Q3 growth was 12%.") |}
  = JStr (js "Q3 growth was 12%.").
Proof. reflexivity. Qed.

Example extract_no_candidates :
  extractText {| status := 200; data := JObj [(js "candidates", JArr [])] |}
  = JUndefined.
Proof. reflexivity. Qed.

Example extract_html_body :
  extractText {| status := 200; data := JStr (js "<html></html>") |} = JUndefined.
Proof. reflexivity. Qed.

(** Scenario 7 of the specification. *)
Example scenario_q3 :
  let s := run (js "KEY")
             [Change (js "What is our Q3 growth rate?"); ClickSend;
              Response (HttpReply 200 (reply (js "Q3 growth was 12%.")))]
             (mount true true) in
  messages s = [userSays (js "What is our Q3 growth rate?");
                assistantSays (js "Q3 growth was 12%.")]
  /\ loading s = false
  /\ speechSynthesisRef s
     = Some {| queue := [{| text := js "Q3 growth was 12%." |}]; interrupted := 0 |}.
Proof. vm_compute. repeat split. Qed.

(** A 2xx reply whose text is the number 5: [replace] is not a function
    of a number, the [try] block throws after its [setMessages], and the
    [catch] block has the last word. *)
Example scenario_text_not_a_string :
  let s := run (js "KEY")
             [Change (js "Hi"); ClickSend;
              Response (HttpReply 200 (replyWith (JNum 5)))]
             (mount true true) in
  messages s = [userSays (js "Hi"); assistantSays errorMessage]
  /\ console s = [js "Gemini error:"]
  /\ loading s = false.
Proof. vm_compute. repeat split. Qed.

(** Scenario 8 of the specification. *)
Example scenario_network_failure :
  let s := run (js "KEY")
             [Change (js "Forecast next quarter"); ClickSend; Response NetworkError]
             (mount true true) in
  messages s = [userSays (js "Forecast next quarter"); assistantSays errorMessage].
Proof. vm_compute. reflexivity. Qed.

(** ** Trimming *)

Lemma trimStart_blank (s : jsstring) : blank s = true -> trimStart s = [].
Proof.
  induction s as [|c r IH]; simpl; [reflexivity|].
  intros H. apply andb_true_iff in H as [Hc Hr]. rewrite Hc. auto.
Qed.

Lemma trimStart_not_blank (s : jsstring) :
  blank s = false -> trimStart s <> [].
Proof.
  induction s as [|c r IH]; simpl; [discriminate|].
  destruct (isWhiteSpace c); simpl; [exact IH | discriminate].
Qed.

Lemma trimStart_keeps_blankness (s : jsstring) : blank (trimStart s) = blank s.
Proof.
  induction s as [|c r IH]; simpl; [reflexivity|].
  destruct (isWhiteSpace c) eqn:Hc; simpl; [exact IH | now rewrite Hc].
Qed.

Lemma blank_rev (s : jsstring) : blank (rev s) = blank s.
Proof.
  unfold blank. induction s as [|c r IH]; simpl; [reflexivity|].
  rewrite forallb_app, IH. simpl. rewrite andb_true_r. apply andb_comm.
Qed.

Lemma trim_blank (s : jsstring) : blank s = true -> trim s = [].
Proof.
  intros H. unfold trim, trimEnd. rewrite (trimStart_blank s H). reflexivity.
Qed.

Lemma trim_not_blank (s : jsstring) : blank s = false -> trim s <> [].
Proof.
  intros H Hnil. unfold trim, trimEnd in Hnil.
  apply (f_equal (@rev N)) in Hnil. rewrite rev_involutive in Hnil. simpl in Hnil.
  revert Hnil. apply trimStart_not_blank.
  now rewrite blank_rev, trimStart_keeps_blankness.
Qed.

(** ** What the handlers leave alone *)

Ltac split_matches :=
  repeat match goal with
    | |- context [match ?x with _ => _ end] => destruct x eqn:?; simpl
    end.

Lemma sendMessage_guard (key : jsstring) (s : State) :
  match trim (input s) with [] => true | _ => false end || loading s = true ->
  sendMessage key s = s.
Proof. intros H. unfold sendMessage. now rewrite H. Qed.

Lemma speakText_frame (t : jsstring) (s : State) :
  messages (speakText t s) = messages s
  /\ input (speakText t s) = input s
  /\ loading (speakText t s) = loading s
  /\ pending (speakText t s) = pending s
  /\ console (speakText t s) = console s.
Proof. unfold speakText. destruct (speechSynthesisRef s); simpl; auto. Qed.

Lemma toggleListening_frame (s : State) :
  messages (toggleListening s) = messages s
  /\ input (toggleListening s) = input s
  /\ loading (toggleListening s) = loading s
  /\ pending (toggleListening s) = pending s.
Proof. unfold toggleListening, start. split_matches; auto. Qed.

(** While a request is open, no callback other than its response touches
    the history, the loading flag or the open request. *)
Lemma handle_while_loading (key : jsstring) (e : Event) (s : State) :
  loading s = true ->
  (forall r, e <> Response r) ->
  messages (handle key e s) = messages s
  /\ loading (handle key e s) = true
  /\ pending (handle key e s) = pending s.
Proof.
  intros Hl He.
  assert (Hsend : sendMessage key s = s)
    by (apply sendMessage_guard; rewrite Hl; apply orb_true_r).
  destruct e; simpl; try (now rewrite Hsend); auto.
  - unfold handleKeyPress. destruct (_ && _); [now rewrite Hsend | auto].
  - destruct (toggleListening_frame s) as (-> & _ & -> & ->). auto.
  - unfold readAloud, stopSpeaking. split_matches; auto;
      match goal with
      | |- context [speakText ?t s] =>
          destruct (speakText_frame t s) as (-> & _ & -> & -> & _); auto
      end.
  - unfold onresult. split_matches; auto.
  - destruct (recognitionRef s); simpl; auto.
  - destruct (recognitionRef s); simpl; auto.
  - unfold utteranceDone. split_matches; auto.
  - unfold utteranceDone. split_matches; auto.
  - unfold utteranceInterrupted. split_matches; auto.
  - exfalso. exact (He r eq_refl).
Qed.

Lemma run_while_loading (key : jsstring) (events : list Event) (s : State) :
  loading s = true ->
  Forall (fun e => forall r, e <> Response r) events ->
  messages (run key events s) = messages s
  /\ loading (run key events s) = true
  /\ pending (run key events s) = pending s.
Proof.
  revert s. induction events as [|e events IH]; intros s Hl Hev; simpl; auto.
  inversion Hev as [|? ? He Hrest]; subst.
  destruct (handle_while_loading key e s Hl He) as (Hm & Hl' & Hp).
  destruct (IH (handle key e s) Hl' Hrest) as (-> & -> & ->). auto.
Qed.

(** ** The two halves of a turn *)

Lemma sendMessage_accepts (key : jsstring) (s : State) :
  blank (input s) = false ->
  loading s = false ->
  messages (sendMessage key s) = messages s ++ [userSays (trim (input s))]
  /\ input (sendMessage key s) = []
  /\ loading (sendMessage key s) = true
  /\ pending (sendMessage key s)
     = pending s ++ [{| url := endpoint key;
                        body := requestBody (trim (input s));
                        newMessages := messages s ++ [userSays (trim (input s))] |}].
Proof.
  intros Hb Hl. unfold sendMessage. rewrite Hl.
  destruct (trim (input s)) as [|c r] eqn:Ht;
    [exfalso; exact (trim_not_blank _ Hb Ht)|].
  cbn [orb]. unfold post.
  destruct (isListening s); cbn -[requestBody endpoint].
  - match goal with
    | |- context [toggleListening ?x] =>
        destruct (toggleListening_frame x) as (-> & -> & -> & ->)
    end.
    simpl. auto.
  - auto.
Qed.

Lemma speakText_synthesis (t : jsstring) (s : State) (y : SpeechSynthesis) :
  speechSynthesisRef s = Some y ->
  speechSynthesisRef (speakText t s)
  = Some {| queue := [{| text := t |}];
            interrupted := interrupted y + length (queue y) |}
  /\ isSpeaking (speakText t s) = true.
Proof.
  intros Hy. unfold speakText. rewrite Hy. unfold speaking.
  destruct y as [q n]. destruct q as [|u q]; simpl; [rewrite Nat.add_0_r|]; auto.
Qed.

Lemma settled_text (k : PendingRequest) (response : AxiosResponse)
  (t : jsstring) (s : State) :
  or_else (extractText response) (JStr placeholder) = JStr t ->
  sendMessage_settled k (Resolved response) s
  = setLoading false
      (speakText (stripEmphasis t)
         (setMessages (newMessages k ++ [assistantSays t]) s)).
Proof.
  intros Hbot. unfold sendMessage_settled, sendMessage_try. rewrite Hbot.
  reflexivity.
Qed.

Lemma settled_failure (k : PendingRequest) (outcome : Settled) (s : State) :
  match outcome with
  | Rejected => True
  | Resolved response =>
      replaceEmphasis (or_else (extractText response) (JStr placeholder)) = None
  end ->
  sendMessage_settled k outcome s
  = setLoading false
      (speakText errorMessage
         (setMessages (newMessages k ++ [assistantSays errorMessage])
            (consoleError "Gemini error:" s))).
Proof.
  intros H. unfold sendMessage_settled. destruct outcome as [response|].
  - unfold sendMessage_try. rewrite H. reflexivity.
  - reflexivity.
Qed.

Lemma axios_settle_2xx (st : Z) (b : JValue) :
  (200 <= st < 300)%Z ->
  axios_settle (HttpReply st b) = Resolved {| status := st; data := b |}.
Proof.
  intros H. unfold axios_settle.
  replace ((200 <=? st)%Z) with true by (symmetry; apply Z.leb_le; lia).
  replace ((st <? 300)%Z) with true by (symmetry; apply Z.ltb_lt; lia).
  reflexivity.
Qed.

(** * The claims *)

(** C1. A submit of input that is not blank, made while nothing is
    loading and no request is open, clears the input buffer at once; when
    the request then comes back with a 2xx status and the extracted
    response is a text [t], the history at the end of the turn is the
    history before it followed by the user message with the trimmed input
    and the assistant message with [t], and loading is false again.
    Whatever other callbacks run in between does not change this; with
    none in between the input buffer is still empty at the end. *)
Theorem turn_success (key : jsstring) (s : State) (events : list Event)
  (st : Z) (b : JValue) (t : jsstring) :
  blank (input s) = false ->
  loading s = false ->
  pending s = [] ->
  (200 <= st < 300)%Z ->
  or_else (extractText {| status := st; data := b |}) (JStr placeholder) = JStr t ->
  Forall (fun e => forall r, e <> Response r) events ->
  let submitted := sendMessage key s in
  let settled :=
    handle key (Response (HttpReply st b)) (run key events submitted) in
  input submitted = []
  /\ messages settled
     = messages s ++ [userSays (trim (input s)); assistantSays t]
  /\ loading settled = false
  /\ pending settled = []
  /\ (events = [] -> input settled = []).
Proof.
  intros Hb Hl Hp Hst Hbot Hev submitted settled.
  destruct (sendMessage_accepts key s Hb Hl) as (Hm1 & Hi1 & Hl1 & Hp1).
  fold submitted in Hm1, Hi1, Hl1, Hp1. rewrite Hp in Hp1. simpl in Hp1.
  destruct (run_while_loading key events submitted Hl1 Hev) as (Hm2 & Hl2 & Hp2).
  assert (Hsettled :
    settled
    = setLoading false
        (speakText (stripEmphasis t)
           (setMessages
              ((messages s ++ [userSays (trim (input s))]) ++ [assistantSays t])
              (withPending [] (run key events submitted))))).
  { unfold settled, handle. rewrite Hp2, Hp1, (axios_settle_2xx st b Hst).
    now rewrite (settled_text _ _ t _ Hbot). }
  split; [exact Hi1|].
  rewrite Hsettled. simpl.
  match goal with
  | |- context [speakText ?u ?x] =>
      destruct (speakText_frame u x) as (-> & -> & _ & -> & _)
  end.
  simpl. rewrite <- app_assoc. simpl. repeat split.
  intros ->. exact Hi1.
Qed.

Lemma turn_success_witness :
  let s := setInput (js "  What is our Q3 growth rate? ") (mount true true) in
  let events := [ClickMic; ClickSend; UtteranceEnd] in
  let submitted := sendMessage (js "KEY") s in
  let settled :=
    handle (js "KEY") (Response (HttpReply 200 (reply (js "Q3 growth was **12%**."))))
      (run (js "KEY") events submitted) in
  blank (input s) = false
  /\ messages settled
     = [userSays (js "What is our Q3 growth rate?");
        assistantSays (js "Q3 growth was **12%**.")]
  /\ loading settled = false.
Proof.
  intros s events submitted settled.
  split; [reflexivity|].
  destruct (turn_success (js "KEY") s events 200
              (reply (js "Q3 growth was **12%**.")) (js "Q3 growth was **12%**."))
    as (_ & Hm & Hl & _);
    [ reflexivity | reflexivity | reflexivity | lia | reflexivity
    | repeat constructor; discriminate | ].
  split; [exact Hm | exact Hl].
Defined.

(** C3. [sendMessage] changes nothing when the input is empty or blank, or
    when loading is already true: the state that comes back is the state
    that went in, with its history, input buffer, loading flag and list of
    open requests, so no request is posted. The Send button and the Enter
    key go through the same function. *)
Theorem sendMessage_noop (key : jsstring) (s : State) :
  blank (input s) = true \/ loading s = true ->
  sendMessage key s = s
  /\ handle key ClickSend s = s
  /\ handle key (KeyPress "Enter" false) s = s.
Proof.
  intros H.
  assert (Hsend : sendMessage key s = s).
  { apply sendMessage_guard. destruct H as [H|H].
    - now rewrite (trim_blank _ H).
    - rewrite H. apply orb_true_r. }
  repeat split; exact Hsend.
Qed.

Lemma sendMessage_noop_witness :
  let blankInput := setInput (js "  	 ") (mount true true) in
  let busy := sendMessage (js "KEY") (setInput (js "Forecast") (mount true true)) in
  (blank (input blankInput) = true /\ sendMessage (js "KEY") blankInput = blankInput)
  /\ (loading busy = true
      /\ sendMessage (js "KEY") (setInput (js "again") busy) = setInput (js "again") busy).
Proof.
  intros blankInput busy. split; (split; [reflexivity|]).
  - apply (sendMessage_noop (js "KEY") blankInput). left. reflexivity.
  - apply (sendMessage_noop (js "KEY") (setInput (js "again") busy)). right. reflexivity.
Defined.

Lemma failure_settles (r : HttpResult) :
  Failure r ->
  match axios_settle r with
  | Rejected => True
  | Resolved response =>
      replaceEmphasis (or_else (extractText response) (JStr placeholder)) = None
  end.
Proof.
  intros [|st b Hst|st b Hst Htruthy Hstr].
  - exact I.
  - unfold axios_settle.
    destruct (Z.leb_spec 200 st); destruct (Z.ltb_spec st 300); simpl; auto; lia.
  - rewrite (axios_settle_2xx st b Hst). unfold or_else. rewrite Htruthy.
    destruct (extractText _) eqn:He; try reflexivity.
    exfalso. exact (Hstr _ eq_refl).
Qed.

Lemma settled_frame (k : PendingRequest) (outcome : Settled) (s : State) :
  loading (sendMessage_settled k outcome s) = false
  /\ pending (sendMessage_settled k outcome s) = pending s.
Proof.
  unfold sendMessage_settled, sendMessage_try, sendMessage_catch.
  destruct outcome as [response|]; [destruct (replaceEmphasis _)|]; simpl;
    match goal with
    | |- context [speakText ?t ?x] =>
        destruct (speakText_frame t x) as (_ & _ & _ & -> & _)
    end; auto.
Qed.

(** C2, as amended. A submit of input that is not blank, made while
    nothing is loading, whose request fails in transport (no reply, or a
    status outside 200..299) or comes back 2xx with a text that is neither
    falsy nor a string, ends with the history extended by the user message
    and then the assistant message
    "⚠ Failed to fetch response. Please check your API key or try again later.",
    with loading false, and with that same text handed to speech
    synthesis as the only utterance. *)
Theorem turn_failure (key : jsstring) (s : State) (events : list Event)
  (r : HttpResult) :
  blank (input s) = false ->
  loading s = false ->
  pending s = [] ->
  Failure r ->
  Forall (fun e => forall r', e <> Response r') events ->
  let before := run key events (sendMessage key s) in
  let settled := handle key (Response r) before in
  messages settled
  = messages s ++ [userSays (trim (input s)); assistantSays errorMessage]
  /\ loading settled = false
  /\ (forall y, speechSynthesisRef before = Some y ->
        speechSynthesisRef settled
        = Some {| queue := [{| text := errorMessage |}];
                  interrupted := interrupted y + length (queue y) |}
        /\ isSpeaking settled = true).
Proof.
  intros Hb Hl Hp Hfail Hev before settled.
  destruct (sendMessage_accepts key s Hb Hl) as (Hm1 & _ & Hl1 & Hp1).
  rewrite Hp in Hp1. simpl in Hp1.
  destruct (run_while_loading key events _ Hl1 Hev) as (Hm2 & _ & Hp2).
  fold before in Hm2, Hp2.
  assert (Hsettled :
    settled
    = setLoading false
        (speakText errorMessage
           (setMessages
              ((messages s ++ [userSays (trim (input s))])
               ++ [assistantSays errorMessage])
              (consoleError "Gemini error:" (withPending [] before))))).
  { unfold settled, handle. rewrite Hp2, Hp1.
    now rewrite (settled_failure _ _ _ (failure_settles r Hfail)). }
  rewrite Hsettled. simpl.
  split; [|split; [reflexivity|]].
  - match goal with
    | |- context [speakText ?u ?x] =>
        destruct (speakText_frame u x) as (-> & _)
    end.
    simpl. now rewrite <- app_assoc.
  - intros y Hy. apply speakText_synthesis. exact Hy.
Qed.

Lemma turn_failure_witness :
  let s := setInput (js "Forecast next quarter") (mount true true) in
  let settled :=
    handle (js "KEY") (Response (HttpReply 503 JNull))
      (run (js "KEY") [ClickMic] (sendMessage (js "KEY") s)) in
  Failure (HttpReply 503 JNull)
  /\ messages settled
     = [userSays (js "Forecast next quarter"); assistantSays errorMessage].
Proof.
  intros s settled.
  assert (Hf : Failure (HttpReply 503 JNull)) by (apply failure_status; lia).
  split; [exact Hf|].
  destruct (turn_failure (js "KEY") s [ClickMic] (HttpReply 503 JNull))
    as (Hm & _);
    [ reflexivity | reflexivity | reflexivity | exact Hf
    | repeat constructor; discriminate | ].
  exact Hm.
Defined.

(** C2 as first stated does not hold: a 2xx reply whose body is [{}], which
    is not of the documented shape, leaves the placeholder in the history
    and in the speech queue, not the failure message. *)
Lemma malformed_body_gets_placeholder :
  let s := run (js "KEY")
             [Change (js "Forecast next quarter"); ClickSend;
              Response (HttpReply 200 (JObj []))]
             (mount true true) in
  (forall t, JObj [] <> reply t)
  /\ messages s
     = [userSays (js "Forecast next quarter"); assistantSays placeholder]
  /\ speechSynthesisRef s
     = Some {| queue := [{| text := placeholder |}]; interrupted := 0 |}
  /\ placeholder <> errorMessage.
Proof.
  repeat split; try discriminate; vm_compute; reflexivity.
Qed.

Lemma settled_text_history (key : jsstring) (s : State) (k : PendingRequest)
  (rest : list PendingRequest) (st : Z) (b : JValue) (t : jsstring) :
  pending s = k :: rest ->
  (200 <= st < 300)%Z ->
  or_else (extractText {| status := st; data := b |}) (JStr placeholder) = JStr t ->
  let settled := handle key (Response (HttpReply st b)) s in
  messages settled = newMessages k ++ [assistantSays t]
  /\ console settled = console s.
Proof.
  intros Hp Hst Hbot settled. unfold settled, handle.
  rewrite Hp, (axios_settle_2xx st b Hst), (settled_text _ _ t _ Hbot). simpl.
  match goal with
  | |- context [speakText ?u ?x] =>
      destruct (speakText_frame u x) as (-> & _ & _ & _ & ->)
  end.
  auto.
Qed.

(** C6, as amended. When a 2xx reply settles the open request: if the text
    of the first part of the first candidate is a string that is not
    empty, the assistant message appended has that text; if the text is
    absent at any level of [candidates[0].content.parts[0].text], or is
    falsy (the empty string included), the assistant message appended has
    the placeholder "⚠ No response received."; in both cases the failure
    path is not taken: nothing is written to the console. *)
Theorem response_extraction (key : jsstring) (s : State) (k : PendingRequest)
  (rest : list PendingRequest) (st : Z) (b : JValue) :
  pending s = k :: rest ->
  (200 <= st < 300)%Z ->
  let response := {| status := st; data := b |} in
  let settled := handle key (Response (HttpReply st b)) s in
  (forall t, extractText response = JStr t -> t <> [] ->
     messages settled = newMessages k ++ [assistantSays t]
     /\ console settled = console s)
  /\ (truthy (extractText response) = false ->
        messages settled = newMessages k ++ [assistantSays placeholder]
        /\ console settled = console s).
Proof.
  intros Hp Hst response settled. split.
  - intros t Ht Hne. apply (settled_text_history key s k rest st b t Hp Hst).
    fold response. rewrite Ht. unfold or_else. simpl.
    destruct t; [contradiction | reflexivity].
  - intros Hfalsy. apply (settled_text_history key s k rest st b _ Hp Hst).
    fold response. unfold or_else. now rewrite Hfalsy.
Qed.

Lemma response_extraction_witness :
  let s := sendMessage (js "KEY") (setInput (js "Plan?") (mount true false)) in
  let good := handle (js "KEY") (Response (HttpReply 200 (reply (js "Grow.")))) s in
  let bare :=
    handle (js "KEY") (Response (HttpReply 200 (JObj [(js "candidates", JArr [])]))) s in
  messages good = [userSays (js "Plan?"); assistantSays (js "Grow.")]
  /\ messages bare = [userSays (js "Plan?"); assistantSays placeholder]
  /\ console bare = [].
Proof.
  intros s good bare.
  destruct (response_extraction (js "KEY") s
              {| url := endpoint (js "KEY");
                 body := requestBody (js "Plan?");
                 newMessages := [userSays (js "Plan?")] |}
              [] 200 (reply (js "Grow.")))
    as (Hgood & _); [reflexivity | lia |].
  destruct (response_extraction (js "KEY") s
              {| url := endpoint (js "KEY");
                 body := requestBody (js "Plan?");
                 newMessages := [userSays (js "Plan?")] |}
              [] 200 (JObj [(js "candidates", JArr [])]))
    as (_ & Hbare); [reflexivity | lia |].
  destruct (Hgood (js "Grow.")) as (Hm & _); [reflexivity | discriminate |].
  destruct Hbare as (Hm' & Hc'); [reflexivity|].
  repeat split; assumption.
Defined.

(** C6 as first stated does not hold: for a 2xx reply of the documented
    shape whose text is the empty string, the text is there, and what is
    appended is the placeholder, not the text. *)
Lemma empty_text_is_not_appended :
  let response := {| status := 200; data := reply (js "") |} in
  let s := run (js "KEY")
             [Change (js "Hi"); ClickSend; Response (HttpReply 200 (reply (js "")))]
             (mount true true) in
  extractText response = JStr (js "")
  /\ messages s = [userSays (js "Hi"); assistantSays placeholder]
  /\ messages s <> [userSays (js "Hi"); assistantSays (js "")].
Proof.
  repeat split; try discriminate; vm_compute; reflexivity.
Qed.

(** C10. When a 2xx reply of the documented shape carries the empty string
    as its text, the assistant message appended to the kept history has
    the placeholder "⚠ No response received." as content, not the empty
    string, and the failure path is not taken. *)
Theorem empty_text_gets_placeholder (key : jsstring) (s : State)
  (k : PendingRequest) (rest : list PendingRequest) (st : Z) (b : JValue) :
  pending s = k :: rest ->
  (200 <= st < 300)%Z ->
  extractText {| status := st; data := b |} = JStr [] ->
  let settled := handle key (Response (HttpReply st b)) s in
  messages settled = newMessages k ++ [assistantSays placeholder]
  /\ last (messages settled) (userSays []) <> assistantSays []
  /\ console settled = console s
  /\ loading settled = false.
Proof.
  intros Hp Hst Ht settled.
  assert (Hbot : or_else (extractText {| status := st; data := b |})
                   (JStr placeholder) = JStr placeholder)
    by (now rewrite Ht).
  destruct (settled_text_history key s k rest st b placeholder Hp Hst Hbot)
    as (Hm & Hc).
  fold settled in Hm, Hc.
  repeat split; try assumption.
  - rewrite Hm, last_last. discriminate.
  - unfold settled, handle. rewrite Hp. apply settled_frame.
Qed.

Lemma empty_text_gets_placeholder_witness :
  let s := sendMessage (js "KEY") (setInput (js "Risks?") (mount false true)) in
  let settled := handle (js "KEY") (Response (HttpReply 200 (reply []))) s in
  extractText {| status := 200; data := reply [] |} = JStr []
  /\ messages settled = [userSays (js "Risks?"); assistantSays placeholder].
Proof.
  intros s settled. split; [reflexivity|].
  destruct (empty_text_gets_placeholder (js "KEY") s
              {| url := endpoint (js "KEY");
                 body := requestBody (js "Risks?");
                 newMessages := [userSays (js "Risks?")] |}
              [] 200 (reply []))
    as (Hm & _); [reflexivity | lia | reflexivity |].
  exact Hm.
Defined.

(** ** Recognition results *)

Lemma transcripts_segments (results : list SpeechRecognitionResult) :
  Forall (fun result => result <> []) results ->
  transcripts results = Some (map firstTranscript results).
Proof.
  induction 1 as [|result rest Hne _ IH]; simpl; [reflexivity|].
  destruct result as [|first others]; [contradiction|].
  simpl. now rewrite IH.
Qed.

(** C7. A recognition result event whose segments each have a first
    alternative sets the input buffer to the transcripts of those first
    alternatives, joined in order with nothing in between, whatever the
    buffer held before; the rest of the state is untouched. After two such
    events in a row the buffer holds what the second one carried. *)
Theorem recognition_overwrites (key : jsstring) (s : State)
  (first second : list SpeechRecognitionResult) :
  Forall (fun result => result <> []) first ->
  Forall (fun result => result <> []) second ->
  recognitionRef s <> None ->
  handle key (RecognitionResult first) s
  = setInput (concat (map firstTranscript first)) s
  /\ input (handle key (RecognitionResult first) s)
     = concat (map firstTranscript first)
  /\ input (run key [RecognitionResult first; RecognitionResult second] s)
     = concat (map firstTranscript second).
Proof.
  intros H1 H2 Hrec.
  destruct (recognitionRef s) as [r|] eqn:Hr; [clear Hrec | contradiction].
  assert (Hfirst : handle key (RecognitionResult first) s
                   = setInput (concat (map firstTranscript first)) s).
  { simpl. rewrite Hr. unfold onresult. now rewrite (transcripts_segments _ H1). }
  split; [exact Hfirst|]. split; [now rewrite Hfirst|].
  unfold run. cbn [fold_left]. rewrite Hfirst. simpl. rewrite Hr.
  unfold onresult. now rewrite (transcripts_segments _ H2).
Qed.

Lemma recognition_overwrites_witness :
  let s := setInput (js "typed before") (handle (js "KEY") ClickMic (mount true true)) in
  let first := [[{| transcript := js "Show me" |}]] in
  let second := [[{| transcript := js "Show me" |}; {| transcript := js "Show my" |}];
                 [{| transcript := js " sales trends" |}]] in
  input (run (js "KEY") [RecognitionResult first; RecognitionResult second] s)
  = js "Show me sales trends".
Proof.
  intros s first second.
  destruct (recognition_overwrites (js "KEY") s first second) as (_ & _ & H);
    [ repeat constructor; discriminate
    | repeat constructor; discriminate
    | discriminate | ].
  exact H.
Defined.

(** ** Stopping *)

(** C9. [stopSpeaking] with no utterance active gives back the state it
    was given, flags included, and [stopSpeaking] twice is [stopSpeaking]
    once. The cleanup on unmount is the same: with recognition not started
    and no utterance active it gives back the state it was given, and
    running it twice is running it once. Neither has a path that throws. *)
Theorem stopping_is_idempotent (s : State) :
  stopSpeaking (stopSpeaking s) = stopSpeaking s
  /\ cleanup (cleanup s) = cleanup s
  /\ (utteranceActive s = false -> stopSpeaking s = s)
  /\ (utteranceActive s = false -> recognitionActive s = false -> cleanup s = s).
Proof.
  destruct s as [ms inp ld li sp rec syn pd al co].
  unfold stopSpeaking, cleanup, utteranceActive, recognitionActive, speaking, stop.
  simpl. repeat split.
  - destruct syn as [[[|u q] n]|]; reflexivity.
  - destruct rec as [[b]|]; destruct syn as [[[|u q] n]|]; reflexivity.
  - destruct syn as [[[|u q] n]|]; simpl; [reflexivity | discriminate | reflexivity].
  - destruct rec as [[b]|]; destruct syn as [[[|u q] n]|]; simpl; intros H1 H2;
      try discriminate; subst; reflexivity.
Qed.

Lemma stopping_is_idempotent_witness :
  let s := mount true true in
  utteranceActive s = false /\ recognitionActive s = false
  /\ stopSpeaking s = s /\ cleanup s = s.
Proof.
  intros s.
  destruct (stopping_is_idempotent s) as (_ & _ & Hstop & Hclean).
  split; [reflexivity|]. split; [reflexivity|].
  split; [apply Hstop | apply Hclean]; reflexivity.
Defined.

(** ** Invariants of the event loop *)

Lemma sendMessage_cases (key : jsstring) (s : State) :
  sendMessage key s = s \/ (blank (input s) = false /\ loading s = false).
Proof.
  destruct (loading s) eqn:Hl.
  - left. apply sendMessage_guard. rewrite Hl. apply orb_true_r.
  - destruct (blank (input s)) eqn:Hb; [left | now right].
    apply sendMessage_guard. now rewrite (trim_blank _ Hb).
Qed.

Lemma toggleListening_synthesis (s : State) :
  speechSynthesisRef (toggleListening s) = speechSynthesisRef s.
Proof. unfold toggleListening, start. split_matches; auto. Qed.

Lemma sendMessage_synthesis (key : jsstring) (s : State) :
  speechSynthesisRef (sendMessage key s) = speechSynthesisRef s.
Proof.
  unfold sendMessage. destruct (_ || _); [reflexivity|].
  unfold post. destruct (isListening s); cbn -[requestBody endpoint]; auto.
  now rewrite toggleListening_synthesis.
Qed.

Lemma handle_submits (key : jsstring) (e : Event) (s : State) :
  submits e = true ->
  handle key e s = sendMessage key s \/ handle key e s = s.
Proof.
  destruct e; try discriminate; intros _; simpl; auto.
  unfold handleKeyPress. destruct (_ && _); auto.
Qed.

(** A callback that neither submits nor settles leaves the history, the
    loading flag and the open requests as they are. *)
Lemma handle_other (key : jsstring) (e : Event) (s : State) :
  submits e = false ->
  settles e = false ->
  messages (handle key e s) = messages s
  /\ loading (handle key e s) = loading s
  /\ pending (handle key e s) = pending s.
Proof.
  destruct e; try discriminate; intros _ _; simpl; auto.
  - destruct (toggleListening_frame s) as (-> & _ & -> & ->). auto.
  - unfold readAloud, stopSpeaking. split_matches; auto;
      match goal with
      | |- context [speakText ?t s] =>
          destruct (speakText_frame t s) as (-> & _ & -> & -> & _); auto
      end.
  - unfold onresult. split_matches; auto.
  - destruct (recognitionRef s); simpl; auto.
  - destruct (recognitionRef s); simpl; auto.
  - unfold utteranceDone. split_matches; auto.
  - unfold utteranceDone. split_matches; auto.
  - unfold utteranceInterrupted. split_matches; auto.
Qed.

Lemma handle_requests (key : jsstring) (e : Event) (s : State) :
  settles e = false ->
  handle key e s = sendMessage key s
  \/ (messages (handle key e s) = messages s
      /\ loading (handle key e s) = loading s
      /\ pending (handle key e s) = pending s).
Proof.
  intros He. destruct (submits e) eqn:Hs.
  - destruct (handle_submits key e s Hs) as [-> | ->]; auto.
  - right. apply handle_other; assumption.
Qed.

Lemma settles_response (e : Event) :
  settles e = true -> exists r, e = Response r.
Proof. destruct e; try discriminate; eauto. Qed.

Lemma oneRequest_idle (s : State) :
  oneRequest s -> loading s = false -> pending s = [].
Proof.
  intros (_ & Hl & _) Hf. destruct (pending s); [reflexivity | congruence].
Qed.

Lemma oneRequest_sendMessage (key : jsstring) (s : State) :
  oneRequest s -> oneRequest (sendMessage key s).
Proof.
  intros Hinv. destruct (sendMessage_cases key s) as [-> | (Hb & Hl)]; [exact Hinv|].
  destruct (sendMessage_accepts key s Hb Hl) as (_ & _ & Hl' & Hp').
  rewrite (oneRequest_idle s Hinv Hl) in Hp'. simpl in Hp'.
  unfold oneRequest. rewrite Hl', Hp'. simpl. repeat split; auto.
  constructor; [|constructor]. simpl. eauto.
Qed.

Lemma oneRequest_response (key : jsstring) (r : HttpResult) (s : State) :
  oneRequest s ->
  oneRequest (handle key (Response r) s)
  /\ pending (handle key (Response r) s) = []
  /\ loading (handle key (Response r) s) = false.
Proof.
  intros Hinv. pose proof Hinv as (Hlen & Hl & Hall). unfold handle.
  destruct (pending s) as [|k rest] eqn:Hp; [rewrite Hp; auto|].
  destruct rest as [|k' rest]; [|simpl in Hlen; lia].
  destruct (settled_frame k (axios_settle r) (withPending [] s)) as (Hl' & Hp').
  change (pending (withPending [] s)) with (@nil PendingRequest) in Hp'.
  unfold oneRequest. rewrite Hl', Hp'. simpl. auto.
Qed.

Lemma oneRequest_step (key : jsstring) (e : Event) (s : State) :
  oneRequest s -> oneRequest (handle key e s).
Proof.
  intros Hinv.
  destruct (settles e) eqn:He;
    [destruct (settles_response e He) as [r ->];
     apply oneRequest_response; exact Hinv|].
  destruct (handle_requests key e s He) as [-> | (_ & Hl & Hp)];
    [apply oneRequest_sendMessage; exact Hinv|].
  unfold oneRequest. rewrite Hl, Hp. exact Hinv.
Qed.

Lemma reachable_oneRequest (key : jsstring) (s : State) :
  reachable key s -> oneRequest s.
Proof.
  induction 1 as [hasRecognition hasSynthesis | e s _ IH].
  - unfold oneRequest. simpl. auto.
  - apply oneRequest_step. exact IH.
Qed.

Lemma oneUtterance_speakText (t : jsstring) (s : State) :
  oneUtterance (speakText t s).
Proof.
  unfold oneUtterance. destruct (speechSynthesisRef s) as [y|] eqn:Hy.
  - destruct (speakText_synthesis t s y Hy) as (-> & _). simpl. lia.
  - unfold speakText. rewrite Hy. simpl. now rewrite Hy.
Qed.

Lemma oneUtterance_step (key : jsstring) (e : Event) (s : State) :
  oneUtterance s -> oneUtterance (handle key e s).
Proof.
  intros Hinv. unfold oneUtterance in *.
  destruct e; simpl; auto.
  - unfold handleKeyPress. destruct (_ && _); auto.
    now rewrite sendMessage_synthesis.
  - now rewrite sendMessage_synthesis.
  - now rewrite toggleListening_synthesis.
  - unfold readAloud.
    destruct (nth_error _ _) as [msg|]; [|exact Hinv].
    destruct (role msg); [exact Hinv|].
    destruct (isSpeaking s).
    + unfold stopSpeaking.
      destruct (speechSynthesisRef s) as [y|] eqn:Hy; [|now rewrite Hy].
      destruct (speaking y); [simpl; lia | now rewrite Hy].
    + destruct (replaceEmphasis _); [apply oneUtterance_speakText | exact Hinv].
  - destruct (recognitionRef s); [|exact Hinv].
    unfold onresult. destruct (transcripts results); exact Hinv.
  - destruct (recognitionRef s); simpl; auto.
  - destruct (recognitionRef s); simpl; auto.
  - unfold utteranceDone.
    destruct (speechSynthesisRef s) as [y|] eqn:Hy; [|now rewrite Hy].
    destruct (queue y) as [|u q] eqn:Hq; simpl; [rewrite Hy, Hq; simpl; lia|].
    simpl in Hinv. lia.
  - unfold utteranceDone.
    destruct (speechSynthesisRef s) as [y|] eqn:Hy; [|now rewrite Hy].
    destruct (queue y) as [|u q] eqn:Hq; simpl; [rewrite Hy, Hq; simpl; lia|].
    simpl in Hinv. lia.
  - unfold utteranceInterrupted.
    destruct (speechSynthesisRef s) as [y|] eqn:Hy; [|now rewrite Hy].
    destruct (interrupted y); simpl; [now rewrite Hy | exact Hinv].
  - destruct (pending s) as [|k rest]; [exact Hinv|].
    unfold sendMessage_settled, sendMessage_try, sendMessage_catch.
    destruct (axios_settle r) as [response|]; [destruct (replaceEmphasis _)|];
      simpl; apply oneUtterance_speakText.
Qed.

Lemma reachable_oneUtterance (key : jsstring) (s : State) :
  reachable key s -> oneUtterance s.
Proof.
  induction 1 as [hasRecognition hasSynthesis | e s _ IH].
  - unfold oneUtterance. simpl. destruct hasSynthesis; simpl; auto.
  - apply oneUtterance_step. exact IH.
Qed.

(** C4. In every state the event loop can reach, at most one request is
    open, and loading is true exactly when one is (the turn is awaiting
    its response). A turn leaves idle only through [sendMessage] (the Send
    button or a key press), which has set loading before it posts the
    request; it leaves awaiting only through the response to its request;
    and every response, whether the request succeeded or failed, brings
    the turn back to idle with loading false. *)
Theorem turn_state_machine (key : jsstring) (s : State) :
  reachable key s ->
  (length (pending s) <= 1)%nat
  /\ (loading s = true <-> phase s = awaiting_response)
  /\ (forall e, phase s = idle -> phase (handle key e s) = awaiting_response ->
        handle key e s = sendMessage key s
        /\ (e = ClickSend \/ exists k shiftKey, e = KeyPress k shiftKey))
  /\ (blank (input s) = false -> phase s = idle ->
        exists s', loading s' = true /\ pending s' = []
          /\ sendMessage key s
             = post (endpoint key) (requestBody (trim (input s)))
                 (messages s ++ [userSays (trim (input s))]) s')
  /\ (forall e, phase s = awaiting_response -> phase (handle key e s) = idle ->
        exists r, e = Response r)
  /\ (forall r, phase s = awaiting_response ->
        phase (handle key (Response r) s) = idle
        /\ loading (handle key (Response r) s) = false).
Proof.
  intros Hreach. pose proof (reachable_oneRequest key s Hreach) as Hinv.
  pose proof Hinv as (Hlen & Hl & _).
  assert (Hphase : phase s = idle <-> pending s = []).
  { unfold phase. destruct (pending s); split; congruence. }
  split; [exact Hlen|]. split.
  { unfold phase. rewrite Hl. destruct (pending s); split; congruence. }
  split.
  { intros e Hidle Hawait. apply Hphase in Hidle.
    assert (Hchange : pending (handle key e s) <> pending s).
    { rewrite Hidle. unfold phase in Hawait.
      destruct (pending (handle key e s)); [discriminate | congruence]. }
    destruct (submits e) eqn:Hs.
    - destruct (handle_submits key e s Hs) as [Hsend | Hsame];
        [|rewrite Hsame in Hchange; contradiction].
      split; [exact Hsend|]. destruct e; try discriminate; eauto.
    - exfalso. apply Hchange. destruct (settles e) eqn:He.
      + destruct (settles_response e He) as [r ->]. simpl. now rewrite Hidle.
      + now destruct (handle_other key e s Hs He) as (_ & _ & ->). }
  split.
  { intros Hb Hidle. apply Hphase in Hidle.
    assert (Hf : loading s = false) by (now rewrite Hl, Hidle).
    exists (let s3 := setLoading true
                        (setInput (js "")
                           (setMessages (messages s ++ [userSays (trim (input s))]) s)) in
            if isListening s then toggleListening s3 else s3).
    cbv zeta. repeat split.
    - destruct (isListening s); [|reflexivity].
      now match goal with
          | |- context [toggleListening ?x] =>
              destruct (toggleListening_frame x) as (_ & _ & -> & _)
          end.
    - destruct (isListening s); [|exact Hidle].
      now match goal with
          | |- context [toggleListening ?x] =>
              destruct (toggleListening_frame x) as (_ & _ & _ & ->)
          end.
    - unfold sendMessage. rewrite Hf.
      destruct (trim (input s)) eqn:Ht; [exfalso; exact (trim_not_blank _ Hb Ht)|].
      reflexivity. }
  split.
  { intros e Hawait Hidle.
    destruct (settles e) eqn:He; [exact (settles_response e He) | exfalso].
    assert (Hloading : loading s = true).
    { unfold phase in Hawait. rewrite Hl. destruct (pending s); congruence. }
    assert (Hne : forall r, e <> Response r) by (intros r ->; discriminate).
    destruct (handle_while_loading key e s Hloading Hne) as (_ & _ & Hp).
    unfold phase in Hawait, Hidle. rewrite Hp in Hidle.
    destruct (pending s); discriminate. }
  intros r _. destruct (oneRequest_response key r s Hinv) as (_ & Hp & Hl').
  split; [|exact Hl']. unfold phase. now rewrite Hp.
Qed.

Lemma turn_state_machine_witness :
  let s := run (js "KEY") [Change (js "Plan"); ClickSend] (mount true true) in
  reachable (js "KEY") s
  /\ (length (pending s) <= 1)%nat
  /\ phase s = awaiting_response
  /\ phase (handle (js "KEY") (Response NetworkError) s) = idle.
Proof.
  intros s.
  assert (Hreach : reachable (js "KEY") s).
  { change (reachable (js "KEY")
              (handle (js "KEY") ClickSend
                 (handle (js "KEY") (Change (js "Plan")) (mount true true)))).
    repeat apply reachable_step. apply reachable_mount. }
  destruct (turn_state_machine (js "KEY") s Hreach)
    as (Hlen & Hload & _ & _ & _ & Hback).
  split; [exact Hreach|]. split; [exact Hlen|].
  assert (Hphase : phase s = awaiting_response) by (apply Hload; reflexivity).
  split; [exact Hphase|]. apply (Hback NetworkError Hphase).
Defined.

(** C5. The body of the request that [sendMessage] posts for an input
    that is not blank is
    [{ contents: [{ role: "user", parts: [{ text: T }] }] }] where [T] is
    the system prompt, two line feeds, the trimmed input and one space.
    It is the same body whatever the history is, and every request open in
    a state the event loop can reach has a body of this form. *)
Theorem request_carries_latest_turn_only (key : jsstring) (s : State) :
  let bodyFor := fun userText : jsstring =>
    JObj [(js "contents",
           JArr [JObj [(js "role", JStr (js "user"));
                       (js "parts",
                        JArr [JObj [(js "text",
                                     JStr (SYSTEM_PROMPT ++ [10; 10]
                                           ++ userText ++ [32]))]])]])] in
  (blank (input s) = false -> loading s = false ->
     map body (pending (sendMessage key s))
     = map body (pending s) ++ [bodyFor (trim (input s))]
     /\ forall history,
          map body (pending (sendMessage key (setMessages history s)))
          = map body (pending s) ++ [bodyFor (trim (input s))])
  /\ (reachable key s ->
        Forall (fun k => exists userText, body k = bodyFor userText) (pending s)).
Proof.
  intros bodyFor. split.
  - intros Hb Hl. split.
    + destruct (sendMessage_accepts key s Hb Hl) as (_ & _ & _ & ->).
      now rewrite map_app.
    + intros history.
      destruct (sendMessage_accepts key (setMessages history s) Hb Hl)
        as (_ & _ & _ & ->).
      now rewrite map_app.
  - intros Hreach. apply (reachable_oneRequest key s Hreach).
Qed.

Lemma request_carries_latest_turn_only_witness :
  let s := setInput (js " Forecast next quarter ")
             (setMessages [userSays (js "Earlier"); assistantSays (js "Answer")]
                (mount true true)) in
  blank (input s) = false
  /\ map body (pending (sendMessage (js "KEY") s))
     = [JObj [(js "contents",
               JArr [JObj [(js "role", JStr (js "user"));
                           (js "parts",
                            JArr [JObj [(js "text",
                                         JStr (SYSTEM_PROMPT ++ [10; 10]
                                               ++ js "Forecast next quarter"
                                               ++ [32]))]])]])]].
Proof.
  intros s. split; [reflexivity|].
  destruct (request_carries_latest_turn_only (js "KEY") s) as (Hpost & _).
  destruct Hpost as (Hbody & _); [reflexivity | reflexivity |].
  exact Hbody.
Defined.

(** C8. In every state the event loop can reach, the synthesis queue holds
    at most one utterance. When synthesis is there, [speakText] first
    cancels whatever the queue holds and then queues the new utterance, so
    that afterwards the new utterance is the only one in the queue, the
    utterances that were in it are counted as interrupted, and isSpeaking
    is true. *)
Theorem speakText_single_utterance (key : jsstring) (s : State) :
  reachable key s ->
  oneUtterance s
  /\ forall t y, speechSynthesisRef s = Some y ->
       speechSynthesisRef (speakText t s)
       = Some {| queue := [{| text := t |}];
                 interrupted := interrupted y + length (queue y) |}
       /\ isSpeaking (speakText t s) = true
       /\ oneUtterance (speakText t s).
Proof.
  intros Hreach. split; [exact (reachable_oneUtterance key s Hreach)|].
  intros t y Hy. destruct (speakText_synthesis t s y Hy) as (Hq & Hs).
  repeat split; [exact Hq | exact Hs | apply oneUtterance_speakText].
Qed.

Lemma speakText_single_utterance_witness :
  let s := run (js "KEY")
             [Change (js "Plan"); ClickSend;
              Response (HttpReply 200 (reply (js "First answer")))]
             (mount true true) in
  reachable (js "KEY") s
  /\ utteranceActive s = true
  /\ speechSynthesisRef (speakText (js "Second") s)
     = Some {| queue := [{| text := js "Second" |}]; interrupted := 1 |}.
Proof.
  intros s.
  assert (Hreach : reachable (js "KEY") s).
  { change (reachable (js "KEY")
              (handle (js "KEY") (Response (HttpReply 200 (reply (js "First answer"))))
                 (handle (js "KEY") ClickSend
                    (handle (js "KEY") (Change (js "Plan")) (mount true true))))).
    repeat apply reachable_step. apply reachable_mount. }
  split; [exact Hreach|]. split; [reflexivity|].
  destruct (speakText_single_utterance (js "KEY") s Hreach) as (_ & Hspeak).
  destruct (Hspeak (js "Second")
              {| queue := [{| text := js "First answer" |}]; interrupted := 0 |})
    as (Hq & _); [reflexivity|].
  exact Hq.
Defined.

(** * Further properties of the component *)

(** ** Reading the response *)

Lemma chain_undefined (keys : list Key) : fold_left optChain keys JUndefined = JUndefined.
Proof. induction keys as [|k keys IH]; simpl; auto. Qed.

(** X1. A 2xx reply whose body is not an object (a string such as an HTML
    page, an array, a number, a boolean, [null]) has no
    [candidates[0].content.parts[0].text]: the assistant message that is
    appended is the placeholder, and the console is left alone. *)
Theorem non_object_body_gets_placeholder (key : jsstring) (s : State)
  (k : PendingRequest) (rest : list PendingRequest) (st : Z) (b : JValue) :
  pending s = k :: rest ->
  (200 <= st < 300)%Z ->
  (forall fields, b <> JObj fields) ->
  let settled := handle key (Response (HttpReply st b)) s in
  extractText {| status := st; data := b |} = JUndefined
  /\ messages settled = newMessages k ++ [assistantSays placeholder]
  /\ console settled = console s.
Proof.
  intros Hp Hst Hb settled.
  assert (Hx : extractText {| status := st; data := b |} = JUndefined).
  { unfold extractText. cbn [data fold_left].
    destruct b; try apply chain_undefined; try reflexivity.
    exfalso. exact (Hb _ eq_refl). }
  split; [exact Hx|].
  apply (settled_text_history key s k rest st b placeholder Hp Hst).
  now rewrite Hx.
Qed.

Lemma non_object_body_gets_placeholder_witness :
  let s := sendMessage (js "KEY") (setInput (js "Margins?") (mount true true)) in
  let settled :=
    handle (js "KEY") (Response (HttpReply 200 (JStr (js "<html>Bad gateway</html>")))) s in
  messages settled = [userSays (js "Margins?"); assistantSays placeholder].
Proof.
  intros s settled.
  destruct (non_object_body_gets_placeholder (js "KEY") s
              {| url := endpoint (js "KEY");
                 body := requestBody (js "Margins?");
                 newMessages := [userSays (js "Margins?")] |}
              [] 200 (JStr (js "<html>Bad gateway</html>")))
    as (_ & Hm & _); [reflexivity | lia | discriminate |].
  exact Hm.
Defined.

(** X2. The text is read along one path only: the field [candidates] of
    the body, the first element of that array, its field [content], the
    field [parts] of that, the first element of that array, its field
    [text]. Other fields of those objects and further candidates and parts
    play no part; when the text found is a string that is not empty, it is
    the content of the assistant message. *)
Theorem only_first_candidate_is_read (key : jsstring) (s : State)
  (k : PendingRequest) (rest : list PendingRequest) (st : Z)
  (top cand cont part : list (jsstring * JValue))
  (moreCandidates moreParts : list JValue) (t : jsstring) :
  pending s = k :: rest ->
  (200 <= st < 300)%Z ->
  field (js "candidates") top = JArr (JObj cand :: moreCandidates) ->
  field (js "content") cand = JObj cont ->
  field (js "parts") cont = JArr (JObj part :: moreParts) ->
  field (js "text") part = JStr t ->
  t <> [] ->
  extractText {| status := st; data := JObj top |} = JStr t
  /\ messages (handle key (Response (HttpReply st (JObj top))) s)
     = newMessages k ++ [assistantSays t].
Proof.
  intros Hp Hst H1 H2 H3 H4 Hne.
  assert (Hx : extractText {| status := st; data := JObj top |} = JStr t).
  { unfold extractText. cbn [data fold_left optChain getProp keyName].
    rewrite H1. cbn [optChain getProp nth keyName].
    change (js (NilZero.string_of_uint (Nat.to_uint 0))) with (js "0").
    cbn [optChain getProp nth keyName]. rewrite H2.
    cbn [optChain getProp nth keyName]. rewrite H3.
    cbn [optChain getProp nth keyName]. rewrite H4. reflexivity. }
  split; [exact Hx|].
  apply (settled_text_history key s k rest st (JObj top) t Hp Hst).
  rewrite Hx. unfold or_else. simpl. destruct t; [contradiction | reflexivity].
Qed.

Lemma only_first_candidate_is_read_witness :
  let answer :=
    JObj [(js "candidates",
           JArr [JObj [(js "content",
                        JObj [(js "parts",
                               JArr [JObj [(js "text", JStr (js "Cut costs."))];
                                     JObj [(js "text", JStr (js " Then hire."))]]);
                              (js "role", JStr (js "model"))]);
                       (js "finishReason", JStr (js "STOP"))];
                 JObj [(js "content",
                        JObj [(js "parts",
                               JArr [JObj [(js "text", JStr (js "Second opinion"))]])])]]);
          (js "modelVersion", JStr (js "gemini-1.5-pro"))] in
  let s := sendMessage (js "KEY") (setInput (js "Advice?") (mount true true)) in
  messages (handle (js "KEY") (Response (HttpReply 200 answer)) s)
  = [userSays (js "Advice?"); assistantSays (js "Cut costs.")].
Proof.
  intros answer s.
  unfold answer.
  eapply (fun top cand cont part more1 more2 H1 H2 H3 H4 H5 H6 H7 =>
            proj2 (only_first_candidate_is_read (js "KEY") s
                     {| url := endpoint (js "KEY");
                        body := requestBody (js "Advice?");
                        newMessages := [userSays (js "Advice?")] |}
                     [] 200 top cand cont part more1 more2 (js "Cut costs.")
                     H1 H2 H3 H4 H5 H6 H7));
    [reflexivity | lia | vm_compute; reflexivity | vm_compute; reflexivity
    | vm_compute; reflexivity | vm_compute; reflexivity | discriminate].
Defined.

(** ** The controls *)


(** X3. The Send button is disabled exactly when [sendMessage] would do
    nothing: the render's [disabled={loading || !input.trim()}] and the
    guard of [sendMessage] agree in every state, and a click on the
    enabled button opens one more request. *)
Theorem send_button_disabled_iff_noop (key : jsstring) (s : State) :
  (sendDisabled (render s) = true <-> sendMessage key s = s)
  /\ (sendDisabled (render s) = false ->
        length (pending (sendMessage key s)) = S (length (pending s))).
Proof.
  assert (Hopen : sendDisabled (render s) = false ->
                  length (pending (sendMessage key s)) = S (length (pending s))).
  { cbn [sendDisabled render]. intros H.
    apply orb_false_iff in H as [Hl Ht].
    assert (Hb : blank (input s) = false).
    { destruct (blank (input s)) eqn:Hb; [|reflexivity].
      now rewrite (trim_blank _ Hb) in Ht. }
    destruct (sendMessage_accepts key s Hb Hl) as (_ & _ & _ & ->).
    rewrite length_app. simpl. lia. }
  split; [split|exact Hopen].
  - cbn [sendDisabled render]. intros H. apply sendMessage_guard.
    now rewrite orb_comm.
  - intros Hsame. destruct (sendDisabled (render s)) eqn:Hd; [reflexivity|].
    specialize (Hopen eq_refl). rewrite Hsame in Hopen. lia.
Qed.

Lemma send_button_disabled_iff_noop_witness :
  let typed := setInput (js "Plan for Q4") (mount true true) in
  sendDisabled (render typed) = false
  /\ length (pending (sendMessage (js "KEY") typed)) = 1%nat
  /\ sendDisabled (render (sendMessage (js "KEY") typed)) = true.
Proof.
  intros typed. split; [reflexivity|].
  destruct (send_button_disabled_iff_noop (js "KEY") typed) as (_ & Hopen).
  split; [exact (Hopen eq_refl) | reflexivity].
Defined.



(** X5. After the cleanup that runs on unmount nothing is listening and
    nothing is being spoken: recognition is stopped and the synthesis
    queue is empty, whatever was going on before. The history, the input
    buffer, the flags and the open requests are not touched. *)
Theorem cleanup_silences (s : State) :
  recognitionActive (cleanup s) = false
  /\ utteranceActive (cleanup s) = false
  /\ messages (cleanup s) = messages s
  /\ input (cleanup s) = input s
  /\ (loading (cleanup s), isListening (cleanup s), isSpeaking (cleanup s))
     = (loading s, isListening s, isSpeaking s)
  /\ pending (cleanup s) = pending s
  /\ forall y, speechSynthesisRef s = Some y ->
       speechSynthesisRef (cleanup s)
       = Some {| queue := []; interrupted := interrupted y + length (queue y) |}.
Proof.
  destruct s as [ms inp ld li sp rec syn pd al co].
  unfold cleanup, recognitionActive, utteranceActive, speaking, stop, cancel.
  destruct rec as [[b]|]; destruct syn as [[[|u q] n]|]; simpl;
    repeat split; try discriminate;
    intros y Hy; injection Hy as <-; simpl; now rewrite ?Nat.add_0_r.
Qed.

Lemma cleanup_silences_witness :
  let s := speakText (js "Revenue grew.")
             (handle (js "KEY") ClickMic (mount true true)) in
  recognitionActive s = true /\ utteranceActive s = true
  /\ recognitionActive (cleanup s) = false
  /\ speechSynthesisRef (cleanup s) = Some {| queue := []; interrupted := 1 |}.
Proof.
  intros s. split; [reflexivity|]. split; [reflexivity|].
  destruct (cleanup_silences s) as (Hrec & _ & _ & _ & _ & _ & Hsyn).
  split; [exact Hrec|].
  apply (Hsyn {| queue := [{| text := js "Revenue grew." |}]; interrupted := 0 |}).
  reflexivity.
Defined.

(** ** The history *)

Lemma trimStart_head (s : jsstring) (c : N) (r : jsstring) :
  trimStart s = c :: r -> isWhiteSpace c = false.
Proof.
  induction s as [|x s IH]; simpl; [discriminate|].
  destruct (isWhiteSpace x) eqn:Hx; [exact IH|].
  intros H. injection H as <- _. exact Hx.
Qed.

Lemma trimStart_fixed (s : jsstring) :
  match s with [] => True | c :: _ => isWhiteSpace c = false end ->
  trimStart s = s.
Proof. destruct s as [|c r]; simpl; [reflexivity|]. now intros ->. Qed.

Lemma trimStart_suffix (s : jsstring) :
  exists spaces, s = spaces ++ trimStart s.
Proof.
  induction s as [|c r [spaces IH]]; simpl; [now exists []|].
  destruct (isWhiteSpace c); [|now exists []].
  exists (c :: spaces). simpl. now rewrite <- IH.
Qed.

Lemma trim_idempotent (s : jsstring) : trim (trim s) = trim s.
Proof.
  unfold trim, trimEnd.
  set (a := trimStart s).
  destruct (trimStart_suffix (rev a)) as [spaces Hsp].
  set (core := trimStart (rev a)) in *.
  assert (Ha : a = rev core ++ rev spaces).
  { rewrite <- (rev_involutive a), Hsp, rev_app_distr. reflexivity. }
  assert (Hfix : trimStart (rev core) = rev core).
  { apply trimStart_fixed. destruct (rev core) as [|c r] eqn:Hrc; [exact I|].
    rewrite Ha in *. simpl in *. apply (trimStart_head s c (r ++ rev spaces)).
    fold a. rewrite Ha. reflexivity. }
  rewrite Hfix, rev_involutive.
  assert (Hcore : trimStart core = core).
  { apply trimStart_fixed. destruct core as [|c r] eqn:Hc; [exact I|].
    apply (trimStart_head (rev a) c r). exact Hc. }
  now rewrite Hcore.
Qed.

Lemma flip_flip (r : Role) : flip (flip r) = r.
Proof. now destruct r. Qed.

Lemma alternates_app (expect : Role) (ms : list Message) (m : Message) :
  alternates expect (ms ++ [m])
  = alternates expect ms
    && sameRole (role m) (if Nat.even (length ms) then expect else flip expect).
Proof.
  revert expect. induction ms as [|x ms IH]; intros expect.
  - simpl. now rewrite andb_true_r.
  - cbn [app alternates length]. rewrite IH, Nat.even_succ, <- Nat.negb_even.
    rewrite flip_flip, <- andb_assoc. now destruct (Nat.even (length ms)).
Qed.

Lemma settled_messages (k : PendingRequest) (outcome : Settled) (s : State) :
  exists t, t <> []
    /\ messages (sendMessage_settled k outcome s)
       = newMessages k ++ [assistantSays t].
Proof.
  destruct outcome as [response|].
  - destruct (replaceEmphasis (or_else (extractText response) (JStr placeholder)))
      as [spoken|] eqn:Hr.
    + destruct (or_else (extractText response) (JStr placeholder)) as [| | | |t| |]
        eqn:Hbot; try discriminate.
      exists t. split.
      * unfold or_else in Hbot.
        destruct (truthy (extractText response)) eqn:Htr.
        -- rewrite Hbot in Htr. now destruct t.
        -- injection Hbot as <-. discriminate.
      * rewrite (settled_text k response t s Hbot). simpl.
        now destruct (speakText_frame (stripEmphasis t)
                        (setMessages (newMessages k ++ [assistantSays t]) s))
          as (-> & _).
    + exists errorMessage. split; [discriminate|].
      rewrite (settled_failure k (Resolved response) s Hr). simpl.
      match goal with
      | |- context [speakText ?u ?x] =>
          now destruct (speakText_frame u x) as (-> & _)
      end.
  - exists errorMessage. split; [discriminate|].
    rewrite (settled_failure k Rejected s I). simpl.
    match goal with
    | |- context [speakText ?u ?x] =>
        now destruct (speakText_frame u x) as (-> & _)
    end.
Qed.

(** What the history looks like, and what the open request has kept of it. *)
Lemma history_step (key : jsstring) (e : Event) (s : State) :
  oneRequest s ->
  alternates user (messages s) = true
  /\ Nat.even (length (messages s)) = negb (loading s)
  /\ Forall textMessage (messages s)
  /\ Forall (fun k => newMessages k = messages s) (pending s) ->
  (alternates user (messages (handle key e s)) = true
   /\ Nat.even (length (messages (handle key e s))) = negb (loading (handle key e s))
   /\ Forall textMessage (messages (handle key e s))
   /\ Forall (fun k => newMessages k = messages (handle key e s))
        (pending (handle key e s)))
  /\ (messages (handle key e s) = messages s
      \/ exists m, messages (handle key e s) = messages s ++ [m]).
Proof.
  intros Hone (Halt & Hpar & Htext & Hkept).
  assert (Hkeep : forall s', messages s' = messages s -> loading s' = loading s ->
                    pending s' = pending s ->
                    (alternates user (messages s') = true
                     /\ Nat.even (length (messages s')) = negb (loading s')
                     /\ Forall textMessage (messages s')
                     /\ Forall (fun k => newMessages k = messages s') (pending s'))
                    /\ (messages s' = messages s
                        \/ exists m, messages s' = messages s ++ [m])).
  { intros s' -> -> ->. auto. }
  assert (Hsend : forall s', s' = sendMessage key s ->
                    (alternates user (messages s') = true
                     /\ Nat.even (length (messages s')) = negb (loading s')
                     /\ Forall textMessage (messages s')
                     /\ Forall (fun k => newMessages k = messages s') (pending s'))
                    /\ (messages s' = messages s
                        \/ exists m, messages s' = messages s ++ [m])).
  { intros s' ->. destruct (sendMessage_cases key s) as [-> | (Hb & Hl)];
      [apply Hkeep; reflexivity|].
    destruct (sendMessage_accepts key s Hb Hl) as (Hm & _ & Hl' & Hp).
    rewrite (oneRequest_idle s Hone Hl) in Hp. simpl in Hp.
    rewrite Hm, Hl', Hp. split; [|eauto].
    rewrite alternates_app, Halt, length_app, Hpar, Hl. simpl.
    rewrite Nat.add_1_r, Nat.even_succ, <- Nat.negb_even, Hpar, Hl.
    repeat split.
    - apply Forall_app. split; [exact Htext|]. constructor; [|constructor].
      exists (trim (input s)). repeat split.
      + now apply trim_not_blank.
      + intros _. apply trim_idempotent.
    - constructor; [reflexivity | constructor]. }
  destruct (settles e) eqn:He.
  - destruct (settles_response e He) as [r ->].
    destruct (oneRequest_response key r s Hone) as (_ & Hp' & Hl').
    pose proof Hone as (Hlen & Hl & _).
    destruct (pending s) as [|k rest] eqn:Hp.
    { apply Hkeep; unfold handle; now rewrite Hp. }
    inversion Hkept as [|? ? Hk _]; subst.
    destruct (settled_messages k (axios_settle r) (withPending rest s))
      as (t & Hne & Hm).
    assert (Hm' : messages (handle key (Response r) s)
                  = messages s ++ [assistantSays t]).
    { unfold handle. rewrite Hp, Hm, Hk. reflexivity. }
    rewrite Hm', Hl', Hp'. split; [|eauto].
    rewrite alternates_app, Halt, length_app, Hpar, Hl. simpl.
    rewrite Nat.add_1_r, Nat.even_succ, <- Nat.negb_even, Hpar, Hl.
    repeat split; [|constructor].
    apply Forall_app. split; [exact Htext|]. constructor; [|constructor].
    exists t. repeat split; [exact Hne | discriminate].
  - destruct (submits e) eqn:Hs.
    + destruct (handle_submits key e s Hs) as [H | H];
        [apply Hsend; exact H | apply Hkeep; now rewrite H].
    + destruct (handle_other key e s Hs He) as (Hm & Hl & Hp).
      apply Hkeep; assumption.
Qed.

Lemma reachable_history (key : jsstring) (s : State) :
  reachable key s ->
  alternates user (messages s) = true
  /\ Nat.even (length (messages s)) = negb (loading s)
  /\ Forall textMessage (messages s)
  /\ Forall (fun k => newMessages k = messages s) (pending s).
Proof.
  induction 1 as [hasRecognition hasSynthesis | e s Hreach IH].
  - simpl. auto.
  - apply (history_step key e s (reachable_oneRequest key s Hreach) IH).
Qed.

Lemma reachable_run (key : jsstring) (events : list Event) (s : State) :
  reachable key s -> reachable key (run key events s).
Proof.
  revert s. induction events as [|e events IH]; intros s Hreach; simpl; auto.
  apply IH. apply reachable_step. exact Hreach.
Qed.

(** X6. The history is append-only. In a state the event loop can reach,
    one callback either leaves the history as it is or adds one message at
    its end; so after any run of callbacks the earlier history is still
    there, in front, followed by at most one new message per callback.
    In particular the response callback, which writes the history it kept
    from before the request, loses nothing. *)
Theorem history_append_only (key : jsstring) (s : State) (events : list Event) :
  reachable key s ->
  exists added,
    messages (run key events s) = messages s ++ added
    /\ (length added <= length events)%nat.
Proof.
  revert s. induction events as [|e events IH]; intros s Hreach.
  - exists []. simpl. now rewrite app_nil_r.
  - destruct (IH (handle key e s) (reachable_step key e s Hreach))
      as (added & Hm & Hlen).
    destruct (history_step key e s (reachable_oneRequest key s Hreach)
                (reachable_history key s Hreach)) as (_ & [Hsame | [m Hone]]).
    + exists added. simpl. rewrite Hm, Hsame. split; [reflexivity | lia].
    + exists (m :: added). simpl. rewrite Hm, Hone, <- app_assoc.
      split; [reflexivity | simpl; lia].
Qed.

Lemma history_append_only_witness :
  let s := run (js "KEY")
             [Change (js "Plan"); ClickSend; Response NetworkError]
             (mount true true) in
  let events := [Change (js " Risks "); ClickMic; ClickSend; ClickSend;
                 Response (HttpReply 200 (reply (js "Few.")))] in
  reachable (js "KEY") s
  /\ exists added,
       messages (run (js "KEY") events s)
       = [userSays (js "Plan"); assistantSays errorMessage] ++ added
       /\ (length added <= 5)%nat.
Proof.
  intros s events.
  assert (Hreach : reachable (js "KEY") s)
    by (apply reachable_run; apply (reachable_mount (js "KEY") true true)).
  split; [exact Hreach|].
  exact (history_append_only (js "KEY") s events Hreach).
Defined.

(** X7. In every state the event loop can reach the history alternates
    user, assistant, user, assistant, ... from a user message on; it has
    an even number of messages when loading is false and an odd number,
    the last one being the user's, when loading is true. *)
Theorem history_alternates (key : jsstring) (s : State) :
  reachable key s ->
  alternates user (messages s) = true
  /\ Nat.even (length (messages s)) = negb (loading s)
  /\ (loading s = true ->
        exists earlier t, messages s = earlier ++ [userSays t]).
Proof.
  intros Hreach.
  destruct (reachable_history key s Hreach) as (Halt & Hpar & Htext & _).
  split; [exact Halt|]. split; [exact Hpar|].
  intros Hl. rewrite Hl in Hpar. simpl in Hpar.
  destruct (messages s) as [|m0 ms0] eqn:Hm; [discriminate|].
  assert (Hne : m0 :: ms0 <> []) by discriminate.
  destruct (exists_last Hne) as (earlier & m & Heq). rewrite Heq in *.
  rewrite alternates_app in Halt. rewrite length_app in Hpar.
  simpl in Hpar. rewrite Nat.add_1_r, Nat.even_succ, <- Nat.negb_even in Hpar.
  apply negb_false_iff in Hpar. rewrite Hpar in Halt.
  apply andb_true_iff in Halt as [_ Hrole].
  apply Forall_app in Htext as [_ Hlast].
  inversion Hlast as [|? ? (t & Hc & _) _]; subst.
  exists earlier, t. f_equal. f_equal. destruct m as [r c]. simpl in *. subst.
  now destruct r.
Qed.

Lemma history_alternates_witness :
  let s := run (js "KEY")
             [Change (js "Plan"); ClickSend; Response NetworkError;
              Change (js "Risks"); KeyPress "Enter" false]
             (mount true true) in
  reachable (js "KEY") s
  /\ loading s = true
  /\ Nat.even (length (messages s)) = false
  /\ exists earlier t, messages s = earlier ++ [userSays t].
Proof.
  intros s.
  assert (Hreach : reachable (js "KEY") s)
    by (apply reachable_run; apply (reachable_mount (js "KEY") true true)).
  destruct (history_alternates (js "KEY") s Hreach) as (_ & Hpar & Hlast).
  split; [exact Hreach|]. split; [reflexivity|].
  split; [exact Hpar | apply Hlast; reflexivity].
Defined.

(** X8. In every state the event loop can reach, the content of every
    message of the history is a string that is not empty, and the content
    of a user message is trimmed: it has no white space at either end.
    A reply whose text is not a string, or is empty, never gets into the
    history as it is. *)
Theorem history_contents_are_text (key : jsstring) (s : State) :
  reachable key s ->
  forall m, In m (messages s) ->
    exists t, content m = JStr t
      /\ t <> []
      /\ (role m = user -> trim t = t /\ blank t = false).
Proof.
  intros Hreach m Hin.
  destruct (reachable_history key s Hreach) as (_ & _ & Htext & _).
  rewrite Forall_forall in Htext.
  destruct (Htext m Hin) as (t & Hc & Hne & Htrim).
  exists t. repeat split; auto.
  destruct (blank t) eqn:Hb; [|reflexivity].
  specialize (Htrim H). rewrite (trim_blank t Hb) in Htrim. congruence.
Qed.

Lemma history_contents_are_text_witness :
  let s := run (js "KEY")
             [Change (js "  Plan  "); ClickSend;
              Response (HttpReply 200 (replyWith (JNum 7)))]
             (mount true true) in
  reachable (js "KEY") s
  /\ messages s = [userSays (js "Plan"); assistantSays errorMessage]
  /\ exists t, content (userSays (js "Plan")) = JStr t /\ t <> [].
Proof.
  intros s.
  assert (Hreach : reachable (js "KEY") s)
    by (apply reachable_run; apply (reachable_mount (js "KEY") true true)).
  split; [exact Hreach|]. split; [reflexivity|].
  destruct (history_contents_are_text (js "KEY") s Hreach (userSays (js "Plan")))
    as (t & Hc & Hne & _); [left; reflexivity|].
  exists t. split; assumption.
Defined.

(** ** Speech output over the event loop *)

Lemma stripEmphasis_plain (t : jsstring) : plain (stripEmphasis t) = true.
Proof.
  unfold plain, stripEmphasis. apply forallb_forall.
  intros c Hc. apply filter_In in Hc. tauto.
Qed.

Lemma sendMessage_speech (key : jsstring) (s : State) :
  speechSynthesisRef (sendMessage key s) = speechSynthesisRef s
  /\ isSpeaking (sendMessage key s) = isSpeaking s.
Proof.
  split; [apply sendMessage_synthesis|].
  unfold sendMessage. destruct (_ || _); [reflexivity|].
  unfold post. destruct (isListening s); cbn -[requestBody endpoint toggleListening];
    [|reflexivity].
  unfold toggleListening, start. split_matches; reflexivity.
Qed.

Lemma speechKept_same (s s' : State) :
  speechSynthesisRef s' = speechSynthesisRef s ->
  isSpeaking s' = isSpeaking s ->
  speechKept s -> speechKept s'.
Proof.
  unfold speechKept, utteranceActive, queuePlain. now intros -> ->.
Qed.

Lemma speechKept_speakText (t : jsstring) (s : State) :
  plain t = true -> speechKept s -> speechKept (speakText t s).
Proof.
  intros Ht Hkept. destruct (speechSynthesisRef s) as [y|] eqn:Hy.
  - destruct (speakText_synthesis t s y Hy) as (Hq & _).
    unfold speechKept, utteranceActive, queuePlain. rewrite Hq. simpl.
    split; [reflexivity|]. constructor; [exact Ht | constructor].
  - apply (speechKept_same s); [| |exact Hkept];
      unfold speakText; rewrite Hy; simpl; auto.
Qed.

Lemma speechKept_stopSpeaking (s : State) :
  speechKept s -> speechKept (stopSpeaking s).
Proof.
  intros Hkept. unfold stopSpeaking.
  destruct (speechSynthesisRef s) as [y|] eqn:Hy; [|exact Hkept].
  destruct (speaking y); [|exact Hkept].
  unfold speechKept, utteranceActive, queuePlain. simpl.
  split; [discriminate | constructor].
Qed.

Lemma replaceEmphasis_plain (v : JValue) (spoken : jsstring) :
  replaceEmphasis v = Some spoken -> plain spoken = true.
Proof.
  destruct v; try discriminate. simpl. intros H. injection H as <-.
  apply stripEmphasis_plain.
Qed.

Lemma toggleListening_speaking (s : State) :
  isSpeaking (toggleListening s) = isSpeaking s.
Proof. unfold toggleListening, start. split_matches; reflexivity. Qed.

Lemma speechKept_step (key : jsstring) (e : Event) (s : State) :
  speechKept s -> speechKept (handle key e s).
Proof.
  intros Hkept. destruct e; cbn [handle].
  - exact Hkept.
  - unfold handleKeyPress. destruct (_ && _); [|exact Hkept].
    apply (speechKept_same s); [apply sendMessage_speech.. | exact Hkept].
  - apply (speechKept_same s); [apply sendMessage_speech.. | exact Hkept].
  - apply (speechKept_same s);
      [apply toggleListening_synthesis | apply toggleListening_speaking | exact Hkept].
  - unfold readAloud.
    destruct (nth_error _ _) as [msg|]; [|exact Hkept].
    destruct (role msg); [exact Hkept|].
    destruct (isSpeaking s); [now apply speechKept_stopSpeaking|].
    destruct (replaceEmphasis _) as [spoken|] eqn:Hr; [|exact Hkept].
    apply speechKept_speakText; [exact (replaceEmphasis_plain _ _ Hr) | exact Hkept].
  - destruct (recognitionRef s); [|exact Hkept].
    unfold onresult. destruct (transcripts results); exact Hkept.
  - destruct (recognitionRef s); exact Hkept.
  - destruct (recognitionRef s); exact Hkept.
  - unfold utteranceDone.
    destruct (speechSynthesisRef s) as [y|] eqn:Hy; [|exact Hkept].
    destruct (queue y) as [|u q] eqn:Hq; [exact Hkept|].
    destruct Hkept as (_ & Hplain). unfold queuePlain in Hplain.
    rewrite Hy, Hq in Hplain. inversion Hplain; subst.
    unfold speechKept, queuePlain. simpl. split; [discriminate | assumption].
  - unfold utteranceDone.
    destruct (speechSynthesisRef s) as [y|] eqn:Hy; [|exact Hkept].
    destruct (queue y) as [|u q] eqn:Hq; [exact Hkept|].
    destruct Hkept as (_ & Hplain). unfold queuePlain in Hplain.
    rewrite Hy, Hq in Hplain. inversion Hplain; subst.
    unfold speechKept, queuePlain. simpl. split; [discriminate | assumption].
  - unfold utteranceInterrupted.
    destruct (speechSynthesisRef s) as [y|] eqn:Hy; [|exact Hkept].
    destruct (interrupted y); [exact Hkept|].
    destruct Hkept as (_ & Hplain). unfold queuePlain in Hplain. rewrite Hy in Hplain.
    unfold speechKept, queuePlain. simpl. split; [discriminate | assumption].
  - destruct (pending s) as [|k rest]; [exact Hkept|].
    unfold sendMessage_settled, sendMessage_finally, sendMessage_try,
      sendMessage_catch.
    destruct (axios_settle r) as [response|];
      [destruct (replaceEmphasis _) as [spoken|] eqn:Hr|];
      match goal with
      | |- speechKept (setLoading false (speakText ?t ?x)) =>
          apply (speechKept_same (speakText t x)); [reflexivity | reflexivity |];
          apply speechKept_speakText;
          [first [exact (replaceEmphasis_plain _ _ Hr) | reflexivity]
          | apply (speechKept_same s); [reflexivity | reflexivity | exact Hkept]]
      end.
Qed.

Lemma reachable_speechKept (key : jsstring) (s : State) :
  reachable key s -> speechKept s.
Proof.
  induction 1 as [hasRecognition hasSynthesis | e s _ IH].
  - unfold speechKept, utteranceActive, queuePlain. simpl.
    split; [discriminate|]. destruct hasSynthesis; simpl; auto.
  - apply speechKept_step. exact IH.
Qed.

(** X9. No text handed to speech synthesis carries a markdown emphasis
    character: in every state the event loop can reach, no utterance in
    the queue has a [#], a [*] or an underscore in its text, whether it
    came from a reply, from the failure message or from a read-aloud
    button. *)
Theorem queue_never_holds_emphasis (key : jsstring) (s : State)
  (y : SpeechSynthesis) (u : SpeechSynthesisUtterance) (c : N) :
  reachable key s ->
  speechSynthesisRef s = Some y ->
  In u (queue y) ->
  In c (text u) ->
  c <> 35 /\ c <> 42 /\ c <> 95.
Proof.
  intros Hreach Hy Hu Hc.
  destruct (reachable_speechKept key s Hreach) as (_ & Hplain).
  unfold queuePlain in Hplain. rewrite Hy in Hplain.
  rewrite Forall_forall in Hplain. specialize (Hplain u Hu).
  unfold plain in Hplain. rewrite forallb_forall in Hplain.
  specialize (Hplain c Hc). unfold isEmphasis in Hplain.
  apply negb_true_iff in Hplain.
  apply orb_false_iff in Hplain as [Hplain H95].
  apply orb_false_iff in Hplain as [H35 H42].
  apply N.eqb_neq in H35, H42, H95. auto.
Qed.

Lemma queue_never_holds_emphasis_witness :
  let s := run (js "KEY")
             [Change (js "Plan"); ClickSend;
              Response (HttpReply 200 (reply (js "# Plan: **grow** _fast_")))]
             (mount true true) in
  speechSynthesisRef s
  = Some {| queue := [{| text := js " Plan: grow fast" |}]; interrupted := 0 |}
  /\ 32 <> 35 /\ 32 <> 42 /\ 32 <> 95.
Proof.
  intros s. split; [reflexivity|].
  apply (queue_never_holds_emphasis (js "KEY") s
           {| queue := [{| text := js " Plan: grow fast" |}]; interrupted := 0 |}
           {| text := js " Plan: grow fast" |} 32).
  - apply reachable_run. apply (reachable_mount (js "KEY") true true).
  - reflexivity.
  - left. reflexivity.
  - left. reflexivity.
Defined.

(** X10. The stop icon is honest: in every state the event loop can reach,
    isSpeaking is true only while an utterance is in the synthesis queue.
    So a click on the button of an assistant message while isSpeaking is
    true always cancels that utterance and clears the flag. *)
Theorem speaking_flag_implies_utterance (key : jsstring) (s : State) :
  reachable key s ->
  isSpeaking s = true ->
  utteranceActive s = true
  /\ forall index msg,
       nth_error (messages s) index = Some msg ->
       role msg = assistant ->
       isSpeaking (readAloud index s) = false
       /\ utteranceActive (readAloud index s) = false.
Proof.
  intros Hreach Hsp.
  destruct (reachable_speechKept key s Hreach) as (Hflag & _).
  specialize (Hflag Hsp). split; [exact Hflag|].
  intros index msg Hnth Hrole. unfold readAloud. rewrite Hnth, Hrole, Hsp.
  unfold stopSpeaking, utteranceActive in *.
  destruct (speechSynthesisRef s) as [y|]; [|discriminate].
  rewrite Hflag. simpl. auto.
Qed.

Lemma speaking_flag_implies_utterance_witness :
  let s := run (js "KEY")
             [Change (js "Plan"); ClickSend;
              Response (HttpReply 200 (reply (js "Grow.")))]
             (mount true true) in
  isSpeaking s = true
  /\ utteranceActive s = true
  /\ isSpeaking (readAloud 1 s) = false
  /\ utteranceActive (readAloud 1 s) = false.
Proof.
  intros s.
  destruct (speaking_flag_implies_utterance (js "KEY") s) as (Hactive & Hstop);
    [apply reachable_run; apply (reachable_mount (js "KEY") true true)
    | reflexivity |].
  split; [reflexivity|]. split; [exact Hactive|].
  apply (Hstop 1%nat (assistantSays (js "Grow."))); reflexivity.
Defined.

(** X11. Read aloud speaks the message. In a state the event loop can
    reach, with synthesis there and isSpeaking false, a click on the
    button of an assistant message makes the content of that message,
    with every [#], [*] and underscore removed, the one utterance in the
    queue, and sets isSpeaking; the history is not touched. *)
Theorem readAloud_speaks_stripped_content (key : jsstring) (s : State)
  (index : nat) (msg : Message) (y : SpeechSynthesis) :
  reachable key s ->
  nth_error (messages s) index = Some msg ->
  role msg = assistant ->
  isSpeaking s = false ->
  speechSynthesisRef s = Some y ->
  exists t, content msg = JStr t
    /\ speechSynthesisRef (readAloud index s)
       = Some {| queue := [{| text := stripEmphasis t |}];
                 interrupted := interrupted y + length (queue y) |}
    /\ isSpeaking (readAloud index s) = true
    /\ messages (readAloud index s) = messages s.
Proof.
  intros Hreach Hnth Hrole Hsp Hy.
  destruct (reachable_history key s Hreach) as (_ & _ & Htext & _).
  rewrite Forall_forall in Htext.
  destruct (Htext msg (nth_error_In _ _ Hnth)) as (t & Hc & _).
  exists t. split; [exact Hc|].
  unfold readAloud. rewrite Hnth, Hrole, Hsp, Hc. simpl.
  destruct (speakText_synthesis (stripEmphasis t) s y Hy) as (Hq & Hs).
  destruct (speakText_frame (stripEmphasis t) s) as (Hm & _).
  auto.
Qed.

Lemma readAloud_speaks_stripped_content_witness :
  let s := run (js "KEY")
             [Change (js "Plan"); ClickSend;
              Response (HttpReply 200 (reply (js "**Grow** the _core_.")));
              UtteranceEnd]
             (mount true true) in
  isSpeaking s = false
  /\ exists t, content (assistantSays (js "**Grow** the _core_.")) = JStr t
       /\ speechSynthesisRef (readAloud 1 s)
          = Some {| queue := [{| text := stripEmphasis t |}]; interrupted := 0 |}.
Proof.
  intros s. split; [reflexivity|].
  destruct (readAloud_speaks_stripped_content (js "KEY") s 1
              (assistantSays (js "**Grow** the _core_."))
              {| queue := []; interrupted := 0 |})
    as (t & Hc & Hq & _);
    [ apply reachable_run; apply (reachable_mount (js "KEY") true true)
    | reflexivity | reflexivity | reflexivity | reflexivity | ].
  exists t. split; [exact Hc | exact Hq].
Defined.

(** ** Capabilities and alerts *)

Lemma quiet_refl (s : State) : quiet s s.
Proof.
  unfold quiet. repeat split; auto. exists []. split; [|constructor].
  symmetry. apply app_nil_r.
Qed.

Lemma quiet_same (s s' : State) :
  recognitionRef s' = recognitionRef s ->
  speechSynthesisRef s' = speechSynthesisRef s ->
  alerts s' = alerts s ->
  quiet s s'.
Proof.
  intros Hr Hy Ha. unfold quiet. rewrite Hr, Hy, Ha. repeat split; auto.
  exists []. split; [|constructor]. symmetry. apply app_nil_r.
Qed.

Lemma alertAccounted_moves (s s' : State) (a : jsstring) :
  (recognitionRef s' = None <-> recognitionRef s = None) ->
  (speechSynthesisRef s' = None <-> speechSynthesisRef s = None) ->
  alertAccounted s a -> alertAccounted s' a.
Proof. unfold alertAccounted. intros Hr Hy [[-> H] | [-> H]]; [left | right]; tauto. Qed.

Lemma quiet_trans (a b c : State) : quiet a b -> quiet b c -> quiet a c.
Proof.
  intros (Hr1 & Hy1 & e1 & Ha1 & Hf1) (Hr2 & Hy2 & e2 & Ha2 & Hf2).
  unfold quiet. split; [tauto|]. split; [tauto|].
  exists (e1 ++ e2). rewrite Ha2, Ha1, app_assoc. split; [reflexivity|].
  apply Forall_app. split; [exact Hf1|].
  eapply Forall_impl; [|exact Hf2].
  intros x. apply alertAccounted_moves; tauto.
Qed.

Ltac quiet_by_cases :=
  unfold quiet; cbn -[js];
  (split; [split; intros; congruence|]);
  (split; [split; intros; congruence|]);
  first
    [ exists []; split; [symmetry; apply app_nil_r | constructor]
    | eexists [_]; split;
      [ reflexivity
      | constructor;
        [ lazymatch goal with
          | |- alertAccounted _
                 (js "Speech recognition is not supported in your browser.") =>
              left; split; [reflexivity | assumption]
          | |- alertAccounted _
                 (js "Speech synthesis is not supported in your browser.") =>
              right; split; [reflexivity | assumption]
          end
        | constructor ] ] ].

Lemma quiet_toggleListening (s : State) : quiet s (toggleListening s).
Proof.
  unfold toggleListening, start.
  destruct (recognitionRef s) as [[b]|] eqn:Hr; [destruct (isListening s), b|];
    quiet_by_cases.
Qed.

Lemma quiet_speakText (t : jsstring) (s : State) : quiet s (speakText t s).
Proof.
  unfold speakText. destruct (speechSynthesisRef s) as [y|] eqn:Hy; quiet_by_cases.
Qed.

Lemma quiet_stopSpeaking (s : State) : quiet s (stopSpeaking s).
Proof.
  unfold stopSpeaking.
  destruct (speechSynthesisRef s) as [y|] eqn:Hy; [destruct (speaking y)|];
    quiet_by_cases.
Qed.

Lemma quiet_sendMessage (key : jsstring) (s : State) : quiet s (sendMessage key s).
Proof.
  unfold sendMessage. destruct (_ || _); [apply quiet_same; reflexivity|].
  set (s3 := setLoading true (setInput (js "") (setMessages _ s))).
  assert (H3 : quiet s s3) by (apply quiet_same; reflexivity).
  assert (H4 : quiet s (if isListening s then toggleListening s3 else s3)).
  { destruct (isListening s); [|exact H3].
    apply (quiet_trans s s3); [exact H3 | apply quiet_toggleListening]. }
  apply (quiet_trans _ _ _ H4). unfold post. quiet_by_cases.
Qed.

Lemma quiet_settled (k : PendingRequest) (outcome : Settled) (s : State) :
  quiet s (sendMessage_settled k outcome s).
Proof.
  unfold sendMessage_settled, sendMessage_finally, sendMessage_try,
    sendMessage_catch.
  destruct outcome as [response|]; [destruct (replaceEmphasis _)|];
    match goal with
    | |- quiet s (setLoading false (speakText ?t ?x)) =>
        apply (quiet_trans s x); [apply quiet_same; reflexivity|];
        apply (quiet_trans x (speakText t x)); [apply quiet_speakText|];
        apply quiet_same; reflexivity
    end.
Qed.

Lemma quiet_step (key : jsstring) (e : Event) (s : State) :
  quiet s (handle key e s).
Proof.
  destruct e; cbn [handle].
  - apply quiet_same; reflexivity.
  - unfold handleKeyPress. destruct (_ && _);
      [apply quiet_sendMessage | apply quiet_same; reflexivity].
  - apply quiet_sendMessage.
  - apply quiet_toggleListening.
  - unfold readAloud. destruct (nth_error _ _) as [msg|]; [|apply quiet_same; reflexivity].
    destruct (role msg); [apply quiet_same; reflexivity|].
    destruct (isSpeaking s); [apply quiet_stopSpeaking|].
    destruct (replaceEmphasis _); [apply quiet_speakText | apply quiet_same; reflexivity].
  - destruct (recognitionRef s) eqn:Hr; [|apply quiet_same; reflexivity].
    unfold onresult. destruct (transcripts results); apply quiet_same; reflexivity.
  - destruct (recognitionRef s) eqn:Hr; [quiet_by_cases | apply quiet_same; reflexivity].
  - destruct (recognitionRef s) eqn:Hr; [quiet_by_cases | apply quiet_same; reflexivity].
  - unfold utteranceDone. destruct (speechSynthesisRef s) as [y|] eqn:Hy;
      [destruct (queue y)|]; try (apply quiet_same; reflexivity). quiet_by_cases.
  - unfold utteranceDone. destruct (speechSynthesisRef s) as [y|] eqn:Hy;
      [destruct (queue y)|]; try (apply quiet_same; reflexivity). quiet_by_cases.
  - unfold utteranceInterrupted. destruct (speechSynthesisRef s) as [y|] eqn:Hy;
      [destruct (interrupted y)|]; try (apply quiet_same; reflexivity). quiet_by_cases.
  - destruct (pending s) as [|k rest]; [apply quiet_same; reflexivity|].
    apply (quiet_trans s (withPending rest s)); [apply quiet_same; reflexivity|].
    apply quiet_settled.
Qed.

Lemma quiet_run (key : jsstring) (events : list Event) (s : State) :
  quiet s (run key events s).
Proof.
  revert s. induction events as [|e events IH]; intros s.
  - apply quiet_same; reflexivity.
  - simpl. apply (quiet_trans s (handle key e s)); [apply quiet_step | apply IH].
Qed.

Lemma reachable_accounted (key : jsstring) (s : State) :
  reachable key s -> Forall (alertAccounted s) (alerts s).
Proof.
  induction 1 as [hasRecognition hasSynthesis | e s _ IH].
  - constructor.
  - destruct (quiet_step key e s) as (Hr & Hy & shown & -> & Hshown).
    apply Forall_app. split; (eapply Forall_impl; [|eassumption]);
      intros a; apply alertAccounted_moves; assumption.
Qed.

(** X12. An alert is shown only for a capability the browser lacks. No
    callback makes recognition or synthesis appear or go away, and in
    every state the event loop can reach each alert shown so far names a
    capability that is missing; with both capabilities there, no alert is
    ever shown. *)
Theorem alerts_only_for_missing_capability (key : jsstring) (s : State) :
  reachable key s ->
  (forall a, In a (alerts s) -> alertAccounted s a)
  /\ (recognitionRef s <> None -> speechSynthesisRef s <> None -> alerts s = [])
  /\ (forall events,
        (recognitionRef (run key events s) = None <-> recognitionRef s = None)
        /\ (speechSynthesisRef (run key events s) = None
            <-> speechSynthesisRef s = None)).
Proof.
  intros Hreach. pose proof (reachable_accounted key s Hreach) as Hall.
  split; [now apply Forall_forall|]. split.
  - intros Hr Hy. destruct (alerts s) as [|a rest]; [reflexivity|].
    inversion Hall as [|? ? [[_ H] | [_ H]] _]; contradiction.
  - intros events. destruct (quiet_run key events s) as (Hr & Hy & _). auto.
Qed.

Lemma alerts_only_for_missing_capability_witness :
  let s := run (js "KEY")
             [ClickMic; Change (js "Plan"); ClickSend; Response NetworkError]
             (mount false true) in
  reachable (js "KEY") s
  /\ alerts s = [js "Speech recognition is not supported in your browser."]
  /\ recognitionRef s = None.
Proof.
  intros s.
  assert (Hreach : reachable (js "KEY") s)
    by (apply reachable_run; apply (reachable_mount (js "KEY") false true)).
  split; [exact Hreach|]. split; [reflexivity|].
  destruct (alerts_only_for_missing_capability (js "KEY") s Hreach) as (Hall & _).
  destruct (Hall (js "Speech recognition is not supported in your browser."))
    as [[_ H] | [_ H]]; [left; reflexivity | exact H | discriminate H].
Defined.

(** ** The microphone *)

Lemma speakText_listening (t : jsstring) (s : State) :
  isListening (speakText t s) = isListening s.
Proof. unfold speakText. destruct (speechSynthesisRef s); reflexivity. Qed.

Lemma sendMessage_listening (key : jsstring) (s : State) :
  isListening (sendMessage key s) = true -> isListening s = true.
Proof.
  unfold sendMessage. destruct (_ || _); [auto|]. unfold post.
  destruct (isListening s) eqn:Hl; [auto|].
  cbn -[requestBody endpoint]. now rewrite Hl.
Qed.

Lemma settled_listening (k : PendingRequest) (outcome : Settled) (s : State) :
  isListening (sendMessage_settled k outcome s) = isListening s.
Proof.
  unfold sendMessage_settled, sendMessage_finally, sendMessage_try,
    sendMessage_catch.
  destruct outcome as [response|]; [destruct (replaceEmphasis _)|];
    cbn [isListening setLoading]; now rewrite speakText_listening.
Qed.

Lemma listening_after (key : jsstring) (e : Event) (s : State) :
  isListening (handle key e s) = true ->
  isListening s = true \/ recognitionRef s <> None.
Proof.
  destruct e; cbn [handle]; auto.
  - unfold handleKeyPress. destruct (_ && _); auto.
    left. now apply (sendMessage_listening key).
  - left. now apply (sendMessage_listening key).
  - unfold toggleListening. destruct (recognitionRef s); [right; discriminate|].
    simpl. auto.
  - unfold readAloud, stopSpeaking.
    destruct (nth_error _ _) as [msg|]; auto. destruct (role msg); auto.
    destruct (isSpeaking s).
    + destruct (speechSynthesisRef s) as [y|]; auto. destruct (speaking y); auto.
    + destruct (replaceEmphasis _); auto. rewrite speakText_listening. auto.
  - destruct (recognitionRef s); auto. unfold onresult.
    destruct (transcripts results); auto.
  - destruct (recognitionRef s); auto. right. discriminate.
  - destruct (recognitionRef s); auto.
  - unfold utteranceDone. destruct (speechSynthesisRef s) as [y|]; auto.
    destruct (queue y); auto.
  - unfold utteranceDone. destruct (speechSynthesisRef s) as [y|]; auto.
    destruct (queue y); auto.
  - unfold utteranceInterrupted. destruct (speechSynthesisRef s) as [y|]; auto.
    destruct (interrupted y); auto.
  - destruct (pending s) as [|k rest]; auto. rewrite settled_listening. auto.
Qed.

Lemma reachable_micKept (key : jsstring) (s : State) :
  reachable key s -> micKept s.
Proof.
  induction 1 as [hasRecognition hasSynthesis | e s _ IH].
  - unfold micKept. simpl. discriminate.
  - unfold micKept in *. intros Hl.
    destruct (quiet_step key e s) as (Hr & _).
    destruct (listening_after key e s Hl) as [H | H]; [specialize (IH H)|];
      rewrite Hr; assumption.
Qed.

(** X13. Sending turns the microphone off. In a state the event loop can
    reach, a submit that is accepted leaves isListening false, so that the
    microphone button offers "Start voice input"; if the component was
    listening, the recognition session has been stopped; and no alert is
    shown on the way. *)
Theorem submit_turns_microphone_off (key : jsstring) (s : State) :
  reachable key s ->
  blank (input s) = false ->
  loading s = false ->
  isListening (sendMessage key s) = false
  /\ micTitle (render (sendMessage key s)) = "Start voice input"%string
  /\ alerts (sendMessage key s) = alerts s
  /\ (isListening s = true -> recognitionActive (sendMessage key s) = false).
Proof.
  intros Hreach Hb Hl. pose proof (reachable_micKept key s Hreach) as Hmic.
  assert (Hfacts : isListening (sendMessage key s) = false
                   /\ alerts (sendMessage key s) = alerts s
                   /\ (isListening s = true ->
                       recognitionActive (sendMessage key s) = false)).
  { unfold sendMessage. rewrite Hl.
    destruct (trim (input s)) as [|c r] eqn:Ht;
      [exfalso; exact (trim_not_blank _ Hb Ht)|].
    cbn [orb]. unfold post, recognitionActive.
    destruct (isListening s) eqn:Hli.
    - unfold micKept in Hmic. specialize (Hmic Hli).
      destruct (recognitionRef s) as [rec|] eqn:Hr; [|contradiction].
      unfold toggleListening. cbn -[requestBody endpoint]. rewrite Hr, Hli.
      cbn -[requestBody endpoint]. auto.
    - cbn -[requestBody endpoint]. rewrite Hli. repeat split. discriminate. }
  destruct Hfacts as (Hoff & Halerts & Hstopped).
  repeat split; try assumption.
  cbn [micTitle render]. now rewrite Hoff.
Qed.

Lemma submit_turns_microphone_off_witness :
  let s := run (js "KEY")
             [ClickMic; RecognitionResult [[{| transcript := js "Show me sales" |}]]]
             (mount true true) in
  isListening s = true
  /\ recognitionActive s = true
  /\ isListening (sendMessage (js "KEY") s) = false
  /\ recognitionActive (sendMessage (js "KEY") s) = false.
Proof.
  intros s.
  destruct (submit_turns_microphone_off (js "KEY") s) as (Hoff & _ & _ & Hstop);
    [ apply reachable_run; apply (reachable_mount (js "KEY") true true)
    | reflexivity | reflexivity | ].
  split; [reflexivity|]. split; [reflexivity|].
  split; [exact Hoff | apply Hstop; reflexivity].
Defined.

(** ** After a turn *)

(** X14. The session stays usable after any turn. In a state the event
    loop can reach that is awaiting a response, whatever comes back
    (a failure as well as a reply), the text field and [sendMessage] work
    again right after it: typing a text that is not blank and sending it
    opens exactly one new request, made from that text, with the user
    message at the end of the history. *)
Theorem session_survives_any_response (key : jsstring) (s : State)
  (r : HttpResult) (typed : jsstring) :
  reachable key s ->
  phase s = awaiting_response ->
  blank typed = false ->
  let s' := run key [Response r; Change typed; ClickSend] s in
  loading s' = true
  /\ map body (pending s') = [requestBody (trim typed)]
  /\ exists answer,
       messages s'
       = messages s ++ [assistantSays answer; userSays (trim typed)].
Proof.
  intros Hreach Hphase Hb s'.
  pose proof (reachable_oneRequest key s Hreach) as Hone.
  destruct (oneRequest_response key r s Hone) as (_ & Hp1 & Hl1).
  set (s1 := handle key (Response r) s) in *.
  assert (Hm1 : exists answer, messages s1 = messages s ++ [assistantSays answer]).
  { destruct (reachable_history key s Hreach) as (_ & _ & _ & Hkept).
    pose proof Hone as (Hlen & _ & _).
    unfold phase in Hphase. unfold s1, handle.
    destruct (pending s) as [|k rest]; [discriminate|].
    inversion Hkept as [|? ? Hk _]; subst.
    destruct (settled_messages k (axios_settle r) (withPending rest s))
      as (answer & _ & Hm).
    exists answer. now rewrite Hm, Hk. }
  destruct Hm1 as (answer & Hm1).
  destruct (sendMessage_accepts key (setInput typed s1) Hb Hl1)
    as (Hm & _ & Hl & Hp).
  change s' with (sendMessage key (setInput typed s1)).
  cbn [pending setInput messages input] in Hm, Hp. rewrite Hp1 in Hp.
  split; [exact Hl|]. split; [now rewrite Hp|].
  exists answer. rewrite Hm, Hm1, <- app_assoc. reflexivity.
Qed.

Lemma session_survives_any_response_witness :
  let s := run (js "KEY") [Change (js "Plan"); ClickSend] (mount true true) in
  let s' := run (js "KEY")
              [Response (HttpReply 500 JNull); Change (js " Again "); ClickSend] s in
  phase s = awaiting_response
  /\ loading s' = true
  /\ map body (pending s') = [requestBody (js "Again")].
Proof.
  intros s s'.
  destruct (session_survives_any_response (js "KEY") s
              (HttpReply 500 JNull) (js " Again "))
    as (Hl & Hp & _);
    [ apply reachable_run; apply (reachable_mount (js "KEY") true true)
    | reflexivity | reflexivity | ].
  split; [reflexivity|]. split; [exact Hl | exact Hp].
Defined.

(** ** Speech input keeps to itself *)

(** X15. Speech input is confined to the input buffer and the listening
    state. Whatever the microphone button and the recognition session do,
    in whatever order, the history, the loading flag, the open requests,
    the synthesis queue and isSpeaking stay as they were; so dictating
    while a request is open cannot disturb the turn, nor cut off what is
    being read aloud. *)
Theorem voice_input_is_confined (key : jsstring) (events : list Event)
  (s : State) :
  Forall (fun e => voiceInput e = true) events ->
  messages (run key events s) = messages s
  /\ loading (run key events s) = loading s
  /\ pending (run key events s) = pending s
  /\ speechSynthesisRef (run key events s) = speechSynthesisRef s
  /\ isSpeaking (run key events s) = isSpeaking s.
Proof.
  revert s. induction events as [|e events IH]; intros s Hall; [simpl; auto|].
  inversion Hall as [|? ? He Hrest]; subst.
  destruct (IH (handle key e s) Hrest) as (Hm & Hl & Hp & Hy & Hs).
  change (run key (e :: events) s) with (run key events (handle key e s)).
  rewrite Hm, Hl, Hp, Hy, Hs. clear IH Hm Hl Hp Hy Hs.
  assert (Hframe : messages (handle key e s) = messages s
                   /\ loading (handle key e s) = loading s
                   /\ pending (handle key e s) = pending s)
    by (apply handle_other; destruct e; try discriminate; reflexivity).
  destruct Hframe as (-> & -> & ->). repeat split.
  - destruct e; try discriminate; cbn [handle].
    + apply toggleListening_synthesis.
    + destruct (recognitionRef s); [|reflexivity].
      unfold onresult. destruct (transcripts results); reflexivity.
    + destruct (recognitionRef s); reflexivity.
    + destruct (recognitionRef s); reflexivity.
  - destruct e; try discriminate; cbn [handle].
    + apply toggleListening_speaking.
    + destruct (recognitionRef s); [|reflexivity].
      unfold onresult. destruct (transcripts results); reflexivity.
    + destruct (recognitionRef s); reflexivity.
    + destruct (recognitionRef s); reflexivity.
Qed.

Lemma voice_input_is_confined_witness :
  let s := run (js "KEY")
             [Change (js "Plan"); ClickSend;
              Response (HttpReply 200 (reply (js "Grow.")));
              Change (js "Risks"); ClickSend]
             (mount true true) in
  let dictation :=
    [ClickMic; RecognitionResult [[{| transcript := js "and costs" |}]];
     RecognitionError; ClickMic; RecognitionEnd] in
  input (run (js "KEY") dictation s) = js "and costs"
  /\ messages (run (js "KEY") dictation s) = messages s
  /\ speechSynthesisRef (run (js "KEY") dictation s)
     = Some {| queue := [{| text := js "Grow." |}]; interrupted := 0 |}.
Proof.
  intros s dictation. split; [reflexivity|].
  destruct (voice_input_is_confined (js "KEY") dictation s)
    as (Hm & _ & _ & Hy & _); [repeat constructor|].
  split; [exact Hm | rewrite Hy; reflexivity].
Defined.
